(** * Simulated annealing on the Rosenbrock function

    A shallow embedding of the code of the notebook
    [notebooks/Simulated Annealing.ipynb] (the [proba] of cell 10, the
    cost function of cell 15 and the demonstration of cell 16) and the
    properties of its accept/reject loop.

    Numbers.  The notebook computes with [numpy] doubles.  The cell is
    embedded twice.  In the first embedding every number is an exact
    rational ([Q]); it carries the properties of the control flow of
    the loop and the order and sign facts, which compare or copy
    stored values and do not depend on how a value was rounded.  The
    second embedding, [F64], has the doubles themselves (IEEE 754
    binary64, every operation rounded); it carries what depends on
    rounding: where the points of the search lie.  Python integers
    ([kmax], [k], [count]) are [Z].

    Library code.  [np.exp], [np.random.randn] and [np.random.rand] are
    not code of the notebook; they are the fields of the interface
    [Numpy].  The module-level generator of [np.random] is a value of an
    abstract type [rng] that every draw maps to a new one. *)

From Stdlib Require Import ZArith QArith List Lia Bool Lqa SpecFloat.
Import ListNotations.

Local Open Scope Q_scope.

(** ** Python values and exceptions *)

(** The only exception an expression of cell 16 can raise: the true
    division of two Python integers by zero. *)
Inductive exn : Type :=
| ZeroDivisionError.

Inductive result (A : Type) : Type :=
| Ok (a : A)
| Raise (e : exn).

Arguments Ok {A} a.
Arguments Raise {A} e.

Definition bind {A B : Type} (r : result A) (f : A -> result B) : result B :=
  match r with
  | Ok a => f a
  | Raise e => Raise e
  end.

Notation "x <- r ;; k" := (bind r (fun x => k))
  (at level 61, r at next level, right associativity).

(** [a / b] on two Python integers. *)
Definition true_div (a b : Z) : result Q :=
  if (b =? 0)%Z then Raise ZeroDivisionError
  else Ok (inject_Z a / inject_Z b).

(** [range(n)]: empty when [n <= 0]. *)
Definition range (n : Z) : list Z :=
  map Z.of_nat (seq 0 (Z.to_nat n)).

(** [x < y] on numbers, as a boolean. *)
Definition Qlt_bool (x y : Q) : bool := negb (Qle_bool y x).

(** A two-element array. *)
Definition point : Type := (Q * Q)%type.

(** [p + z]: a scalar broadcast over the array. *)
Definition add_scalar (p : point) (z : Q) : point :=
  (fst p + z, snd p + z).

(** The functions of [numpy] the cell calls, over a generator state
    [rng]: [np.exp], and the draws [np.random.randn()] and
    [np.random.rand()], each returning its number and the generator
    after the draw. *)
Class Numpy (rng : Type) : Type := {
  exp : Q -> Q;
  randn : rng -> Q * rng;
  rand : rng -> Q * rng
}.

(** ** Cell 10 *)

(** [proba = lambda fx, T: np.exp(-(fx - 1) / T)]: the acceptance
    probability that the cell plots, for a current cost of [1]. *)
Definition proba {rng : Type} {np : Numpy rng} (fx T : Q) : Q :=
  exp (- (fx - 1) / T).

(** ** Cell 15 *)

(** [def rosenbrock(x, y, a=1, B=100)] *)
Definition rosenbrock (x y a B : Q) : Q :=
  (a - x) ^ 2 + B * (y - x ^ 2) ^ 2.

(** [rosenbrock(p[0], p[1])], with the default [a] and [B]. *)
Definition cost (p : point) : Q :=
  rosenbrock (fst p) (snd p) 1 100.

(** ** Cell 16 *)

(** The variables of the cell that the loop reads and writes, and the
    generator. *)
Record state (rng : Type) : Type := mkState {
  x0_temp : point;
  f0_temp : Q;
  x0_best : point;
  f0_best : Q;
  count : Z;
  gen : rng
}.

Arguments mkState {rng}.
Arguments x0_temp {rng} s.
Arguments f0_temp {rng} s.
Arguments x0_best {rng} s.
Arguments f0_best {rng} s.
Arguments count {rng} s.
Arguments gen {rng} s.

(** The lines before the loop.  [x0_temp] and [x0_best] are two names
    of the array [x0]; no line of the cell writes into an array, so
    the sharing is not observable. *)
Definition init {rng : Type} (x0 : point) (g : rng) : state rng :=
  {| x0_temp := x0; f0_temp := cost x0;
     x0_best := x0; f0_best := cost x0;
     count := 0%Z; gen := g |}.

(** [T = (kmax - k) / kmax] *)
Definition temperature (kmax k : Z) : result Q :=
  true_div (kmax - k) kmax.

(** [if f0_temp < f0_best: x0_best = x0_temp; f0_best = f0_temp] *)
Definition track_best {rng : Type} (st : state rng) : state rng :=
  if Qlt_bool (f0_temp st) (f0_best st) then
    {| x0_temp := x0_temp st; f0_temp := f0_temp st;
       x0_best := x0_temp st; f0_best := f0_temp st;
       count := count st; gen := gen st |}
  else st.

(** What the three [print] lines show. *)
Definition report {rng : Type} (st : state rng) : point * Q * Z :=
  (x0_best st, cost (x0_best st), count st).

Section Annealing.

Context {rng : Type} {np : Numpy rng}.

(** [x1 = x0_temp + np.random.randn()]: the candidate and the
    generator after the draw. *)
Definition neighbor (p : point) (g : rng) : point * rng :=
  let (z, g1) := randn g in (add_scalar p z, g1).

(** The [if]/[elif]/[else] statement of the loop body, after the
    three assignments before it.  The boolean is [false] when the
    [else: continue] branch ran, [true] when control goes on to the
    best-tracking statement. *)
Definition metropolis (kmax k : Z) (st : state rng)
  : result (bool * state rng) :=
  let (x1, g1) := neighbor (x0_temp st) (gen st) in
  let f1 := cost x1 in
  T <- temperature kmax k ;;
  if Qlt_bool f1 (f0_temp st) then
    Ok (true, {| x0_temp := x1; f0_temp := f1;
                 x0_best := x0_best st; f0_best := f0_best st;
                 count := count st; gen := g1 |})
  else
    let (u, g2) := rand g1 in
    if Qlt_bool u (exp (- (f1 - f0_temp st) / T)) then
      Ok (true, {| x0_temp := x1; f0_temp := f1;
                   x0_best := x0_best st; f0_best := f0_best st;
                   count := (count st + 1)%Z; gen := g2 |})
    else
      Ok (false, {| x0_temp := x0_temp st; f0_temp := f0_temp st;
                    x0_best := x0_best st; f0_best := f0_best st;
                    count := count st; gen := g2 |}).

(** One pass through the loop body. *)
Definition body (kmax k : Z) (st : state rng) : result (state rng) :=
  r <- metropolis kmax k st ;;
  Ok (if fst r then track_best (snd r) else snd r).

(** [for k in ks: body] *)
Fixpoint loop (kmax : Z) (ks : list Z) (st : state rng)
  : result (state rng) :=
  match ks with
  | [] => Ok st
  | k :: ks' => st' <- body kmax k st ;; loop kmax ks' st'
  end.

(** The cell from [x0_temp = x0] to the end of the loop, for a given
    [x0] and [kmax]. *)
Definition anneal (x0 : point) (kmax : Z) (g : rng) : result (state rng) :=
  loop kmax (range kmax) (init x0 g).

(** The state after the first [n] passes of that run. *)
Definition state_at (x0 : point) (kmax : Z) (g : rng) (n : nat)
  : result (state rng) :=
  loop kmax (firstn n (range kmax)) (init x0 g).

(** [x0 = 2 - np.random.rand(2) * 4]: two uniform draws, in order. *)
Definition draw_x0 (g : rng) : point * rng :=
  let (u0, g1) := rand g in
  let (u1, g2) := rand g1 in
  ((2 - u0 * 4, 2 - u1 * 4), g2).

(** The whole cell, [kmax = 1000]. *)
Definition cell16 (g : rng) : result (point * Q * Z) :=
  let (x0, g0) := draw_x0 g in
  st <- anneal x0 1000 g0 ;;
  Ok (report st).

(** ** Names for the quantities of one pass

    The candidate [x1] of a pass from [st], and the uniform number the
    [elif] test reads (drawn after the candidate's noise). *)
Definition candidate (st : state rng) : point :=
  fst (neighbor (x0_temp st) (gen st)).

Definition uniform_draw (st : state rng) : Q :=
  fst (rand (snd (neighbor (x0_temp st) (gen st)))).

(** The test of the [if] and the test of the [elif], for a
    temperature [T]. *)
Definition improves (st : state rng) : Prop :=
  cost (candidate st) < f0_temp st.

Definition metropolis_test (T : Q) (st : state rng) : Prop :=
  uniform_draw st < exp (- (cost (candidate st) - f0_temp st) / T).

End Annealing.

(** ** A generator to run the cell with

    A tape of numbers: a draw reads the head ([0] on an empty tape). *)
Definition tape : Type := list Q.

Definition draw (t : tape) : Q * tape :=
  match t with
  | [] => (0, [])
  | q :: t' => (q, t')
  end.

(** A rational stand-in for [np.exp] on non-positive arguments,
    [1 / (1 - q)]. *)
Definition exp_pade (q : Q) : Q := 1 / (1 - q).

#[export] Instance tape_numpy : Numpy tape :=
  {| exp := exp_pade; randn := draw; rand := draw |}.

(** A start and a tape on which a run of three passes takes each
    branch once: the first pass rejects, the second improves, the third
    is accepted by the [elif] test. *)
Definition demo_x0 : point := (0, 1).

Definition demo_tape : tape := [1 # 2; 1 # 3; - 1 # 4; 1 # 5; 0; 1 # 7].

(** ** The cell in binary64

    The same cell with the numbers as [numpy] has them: IEEE 754
    binary64 values ([spec_float] at precision 53 and [emax] 1024),
    every operation rounded to nearest, ties to even.  [np.exp], the
    power [**] of [np.float64] and the two draws are library code and
    are the fields of the interface [F64.Numpy]. *)
Module F64.

Definition float64 : Type := spec_float.

Definition add : float64 -> float64 -> float64 := SFadd 53 1024.
Definition sub : float64 -> float64 -> float64 := SFsub 53 1024.
Definition mul : float64 -> float64 -> float64 := SFmul 53 1024.
Definition div : float64 -> float64 -> float64 := SFdiv 53 1024.
Definition opp : float64 -> float64 := SFopp.
Definition ltb : float64 -> float64 -> bool := SFltb.

(** The double nearest to [m * 2^e]; a Python integer as a double. *)
Definition scaled (m e : Z) : float64 := binary_normalize 53 1024 m e false.

Definition of_int (z : Z) : float64 := scaled z 0.

(** A Python integer, exactly (the mantissa is as long as it needs). *)
Definition exact_int (z : Z) : spec_float :=
  match z with
  | Z0 => S754_zero false
  | Zpos p => S754_finite false p 0
  | Zneg p => S754_finite true p 0
  end.

(** [a / b] on two Python integers: the double nearest to the exact
    quotient.  (The quotients of the loop are at most [1]; Python's
    [OverflowError] for a quotient beyond the doubles is not
    modelled.) *)
Definition true_div (a b : Z) : result float64 :=
  if (b =? 0)%Z then Raise ZeroDivisionError
  else Ok (SFdiv 53 1024 (exact_int a) (exact_int b)).

(** A two-element array of doubles. *)
Definition fpoint : Type := (float64 * float64)%type.

(** [p + z]: the scalar is added to each element, and each sum is
    rounded on its own. *)
Definition add_scalar (p : fpoint) (z : float64) : fpoint :=
  (add (fst p) z, add (snd p) z).

Class Numpy (rng : Type) : Type := {
  exp : float64 -> float64;
  power : float64 -> float64 -> float64;
  randn : rng -> float64 * rng;
  rand : rng -> float64 * rng
}.

Record state (rng : Type) : Type := mkState {
  x0_temp : fpoint;
  f0_temp : float64;
  x0_best : fpoint;
  f0_best : float64;
  count : Z;
  gen : rng
}.

Arguments mkState {rng}.
Arguments x0_temp {rng} s.
Arguments f0_temp {rng} s.
Arguments x0_best {rng} s.
Arguments f0_best {rng} s.
Arguments count {rng} s.
Arguments gen {rng} s.

(** [T = (kmax - k) / kmax] *)
Definition temperature (kmax k : Z) : result float64 :=
  true_div (kmax - k) kmax.

(** [if f0_temp < f0_best: x0_best = x0_temp; f0_best = f0_temp] *)
Definition track_best {rng : Type} (st : state rng) : state rng :=
  if ltb (f0_temp st) (f0_best st) then
    {| x0_temp := x0_temp st; f0_temp := f0_temp st;
       x0_best := x0_temp st; f0_best := f0_temp st;
       count := count st; gen := gen st |}
  else st.

Section Cell.

Context {rng : Type} {np : Numpy rng}.

(** [def rosenbrock(x, y, a=1, B=100)], on doubles [x] and [y] and
    Python integers [a] and [B]; the exponents are the integer [2]. *)
Definition rosenbrock (x y : float64) (a B : Z) : float64 :=
  add (power (sub (of_int a) x) (of_int 2))
      (mul (of_int B) (power (sub y (power x (of_int 2))) (of_int 2))).

Definition cost (p : fpoint) : float64 :=
  rosenbrock (fst p) (snd p) 1 100.

Definition init (x0 : fpoint) (g : rng) : state rng :=
  {| x0_temp := x0; f0_temp := cost x0;
     x0_best := x0; f0_best := cost x0;
     count := 0%Z; gen := g |}.

(** [x1 = x0_temp + np.random.randn()] *)
Definition neighbor (p : fpoint) (g : rng) : fpoint * rng :=
  let (z, g1) := randn g in (add_scalar p z, g1).

(** The [if]/[elif]/[else] statement; the boolean is [false] when the
    [else: continue] branch ran. *)
Definition metropolis (kmax k : Z) (st : state rng)
  : result (bool * state rng) :=
  let (x1, g1) := neighbor (x0_temp st) (gen st) in
  let f1 := cost x1 in
  T <- temperature kmax k ;;
  if ltb f1 (f0_temp st) then
    Ok (true, {| x0_temp := x1; f0_temp := f1;
                 x0_best := x0_best st; f0_best := f0_best st;
                 count := count st; gen := g1 |})
  else
    let (u, g2) := rand g1 in
    if ltb u (exp (div (opp (sub f1 (f0_temp st))) T)) then
      Ok (true, {| x0_temp := x1; f0_temp := f1;
                   x0_best := x0_best st; f0_best := f0_best st;
                   count := (count st + 1)%Z; gen := g2 |})
    else
      Ok (false, {| x0_temp := x0_temp st; f0_temp := f0_temp st;
                    x0_best := x0_best st; f0_best := f0_best st;
                    count := count st; gen := g2 |}).

Definition body (kmax k : Z) (st : state rng) : result (state rng) :=
  r <- metropolis kmax k st ;;
  Ok (if fst r then track_best (snd r) else snd r).

Fixpoint loop (kmax : Z) (ks : list Z) (st : state rng)
  : result (state rng) :=
  match ks with
  | [] => Ok st
  | k :: ks' => st' <- body kmax k st ;; loop kmax ks' st'
  end.

Definition anneal (x0 : fpoint) (kmax : Z) (g : rng) : result (state rng) :=
  loop kmax (range kmax) (init x0 g).

Definition state_at (x0 : fpoint) (kmax : Z) (g : rng) (n : nat)
  : result (state rng) :=
  loop kmax (firstn n (range kmax)) (init x0 g).

Definition candidate (st : state rng) : fpoint :=
  fst (neighbor (x0_temp st) (gen st)).

End Cell.

(** The point reached from [p] by adding the scalars [zs], one after
    the other, each to both coordinates. *)
Definition shift (p : fpoint) (zs : list float64) : fpoint :=
  fold_left add_scalar zs p.

End F64.

(** A generator of doubles to run the binary64 cell with: a tape (a
    draw on an empty tape gives [+0.0]), a stand-in for [np.exp] on
    non-positive arguments, [1 / (1 - x)], and for [x ** 2] the
    rounded square [x * x]. *)
Definition tape64 : Type := list F64.float64.

Definition draw64 (t : tape64) : F64.float64 * tape64 :=
  match t with
  | [] => (S754_zero false, [])
  | x :: t' => (x, t')
  end.

#[export] Instance tape_numpy64 : F64.Numpy tape64 :=
  {| F64.exp := fun x => F64.div (F64.of_int 1) (F64.sub (F64.of_int 1) x);
     F64.power := fun x _ => F64.mul x x;
     F64.randn := draw64;
     F64.rand := draw64 |}.

(** A start of doubles and a tape on which the three passes take each
    branch once and every sum is exact: [[0.0, 1.0]] with the draws
    [1/2], [1/4], [-1/4], [1/8], [0.0], [1/16]. *)
Definition demo64_x0 : F64.fpoint := (F64.of_int 0, F64.of_int 1).

Definition demo64_tape : tape64 :=
  [F64.scaled 1 (-1); F64.scaled 1 (-2); F64.scaled (-1) (-2);
   F64.scaled 1 (-3); F64.of_int 0; F64.scaled 1 (-4)].



(** ** Vocabulary of the properties *)


(** The same line, as a test: both points have the same difference of
    coordinates. *)
Definition on_line_bool (x0 p : point) : bool :=
  Qeq_bool (snd p - fst p) (snd x0 - fst x0).

(** Both recorded costs are the costs of the recorded points. *)
Definition consistent {rng : Type} (st : state rng) : Prop :=
  f0_temp st = cost (x0_temp st) /\ f0_best st = cost (x0_best st).

(** The best pair of [st] is still the initial one, or its cost is
    strictly below the initial cost. *)
Definition initial_or_better {rng : Type} (x0 : point) (st : state rng) : Prop :=
  (x0_best st = x0 /\ f0_best st = cost x0) \/ f0_best st < cost x0.

(** Two states, over possibly different generators, hold the same
    values in the variables of the cell. *)
Definition same_vars {A B : Type} (sa : state A) (sb : state B) : Prop :=
  x0_temp sa = x0_temp sb /\ f0_temp sa = f0_temp sb /\
  x0_best sa = x0_best sb /\ f0_best sa = f0_best sb /\
  count sa = count sb.

(** [R] relates generator states that deliver the same numbers, draw
    after draw, whichever of the two draws is made. *)
Definition same_draws {A B : Type} {npA : Numpy A} {npB : Numpy B}
  (R : A -> B -> Prop) : Prop :=
  forall (a : A) (b : B), R a b ->
    (fst (randn a) = fst (randn b) /\ R (snd (randn a)) (snd (randn b))) /\
    (fst (rand a) = fst (rand b) /\ R (snd (rand a)) (snd (rand b))).

(** Two results agree: both raise the same exception, or both return
    and the returned values are related by [P]. *)
Definition result_rel {X Y : Type} (P : X -> Y -> Prop)
  (ra : result X) (rb : result Y) : Prop :=
  match ra, rb with
  | Ok a, Ok b => P a b
  | Raise ea, Raise eb => ea = eb
  | _, _ => False
  end.

(** Two states agree on the variables of the cell, and their generators
    are related by [R]. *)
Definition state_rel {A B : Type} (R : A -> B -> Prop)
  (sa : state A) (sb : state B) : Prop :=
  same_vars sa sb /\ R (gen sa) (gen sb).

(** ** Conditions on the library, and a counting generator *)

(** What a property may ask of [np.exp], on the arguments that the
    acceptance test passes when the candidate does not improve (the
    non-positive ones): that it is non-decreasing, and that it is
    nowhere negative ([np.exp] of a double can be [0.0], so positive is
    not asked). *)
Definition exp_monotone {rng : Type} (np : Numpy rng) : Prop :=
  forall a b : Q, a <= b -> b <= 0 -> exp a <= exp b.

Definition exp_nonneg {rng : Type} (np : Numpy rng) : Prop :=
  forall a : Q, a <= 0 -> 0 <= exp a.

(** A number that [np.random.rand] may return: in [[0, 1)]. *)
Definition in_unit (u : Q) : Prop := 0 <= u /\ u < 1.

(** A generator that counts the draws made from it: the generator [g]
    paired with the number of draws so far. *)
Definition counted (rng : Type) : Type := (rng * nat)%type.

Definition counted_numpy {rng : Type} (np : Numpy rng) : Numpy (counted rng) :=
  {| exp := exp;
     randn := fun c => let (z, g) := randn (fst c) in (z, (g, S (snd c)));
     rand := fun c => let (u, g) := rand (fst c) in (u, (g, S (snd c))) |}.

(** The number of passes that [state_at _ kmax _ n] has made. *)
Definition passes (kmax : Z) (n : nat) : nat :=
  length (firstn n (range kmax)).

(** The two calls that draw from the generator: [np.random.randn()]
    and [np.random.rand()]. *)
Inductive draw_kind : Type :=
| Normal
| Uniform.

(** A generator that keeps the log of the draws made from it, oldest
    first: the generator [g] paired with the calls so far. *)
Definition logged (rng : Type) : Type := (rng * list draw_kind)%type.

Definition logged_numpy {rng : Type} (np : Numpy rng) : Numpy (logged rng) :=
  {| exp := exp;
     randn := fun c =>
       let (z, g) := randn (fst c) in (z, (g, snd c ++ [Normal]));
     rand := fun c =>
       let (u, g) := rand (fst c) in (u, (g, snd c ++ [Uniform])) |}.

(** The draws that the order of the loop body prescribes for one pass
    from [st]: the noise of the candidate, then the number of the
    acceptance test unless the candidate strictly improves. *)
Definition pass_draws {rng : Type} {np : Numpy rng} (st : state rng)
  : list draw_kind :=
  if Qlt_bool (cost (candidate st)) (f0_temp st)
  then [Normal] else [Normal; Uniform].

(** The same for the first [n] passes of a run, pass after pass. *)
Fixpoint run_draws {rng : Type} {np : Numpy rng}
  (x0 : point) (kmax : Z) (g : rng) (n : nat) : list draw_kind :=
  match n with
  | O => []
  | S m =>
      run_draws x0 kmax g m ++
      match state_at x0 kmax g m, nth_error (range kmax) m with
      | Ok st, Some _ => pass_draws st
      | _, _ => []
      end
  end.

(** The number that a double is, when it is finite. *)
Definition f64_value (x : F64.float64) : option Q :=
  match x with
  | S754_zero _ => Some 0
  | S754_finite s m e =>
      Some ((if s then - inject_Z (Z.pos m) else inject_Z (Z.pos m)) * 2 ^ e)
  | S754_infinity _ | S754_nan => None
  end.

Definition point_value (p : F64.fpoint) : option point :=
  match f64_value (fst p), f64_value (snd p) with
  | Some x, Some y => Some (x, y)
  | _, _ => None
  end.


Definition on_line64_bool (x0 p : F64.fpoint) : bool :=
  match point_value x0, point_value p with
  | Some a, Some b => on_line_bool a b
  | _, _ => false
  end.

(** The sum [x + z] of two doubles is exact: it did not need
    rounding. *)
Definition exact_sum (x z : F64.float64) : bool :=
  match f64_value x, f64_value z, f64_value (F64.add x z) with
  | Some a, Some b, Some c => Qeq_bool c (a + b)
  | _, _, _ => false
  end.

(** All the sums of [F64.shift p zs] are exact (and [p] is finite). *)
Fixpoint exact_shifts (p : F64.fpoint) (zs : list F64.float64) : bool :=
  match zs with
  | [] => match point_value p with Some _ => true | None => false end
  | z :: zs' =>
      exact_sum (fst p) z && exact_sum (snd p) z
      && exact_shifts (F64.add_scalar p z) zs'
  end.

(** ** Basic facts *)

Lemma Qlt_bool_iff (x y : Q) : Qlt_bool x y = true <-> x < y.
Proof.
  unfold Qlt_bool. rewrite negb_true_iff, <- not_true_iff_false, Qle_bool_iff.
  split; [apply Qnot_le_lt | apply Qlt_not_le].
Qed.

Lemma Qlt_bool_false_iff (x y : Q) : Qlt_bool x y = false <-> ~ x < y.
Proof.
  rewrite <- Qlt_bool_iff. destruct (Qlt_bool x y); split; congruence.
Qed.

Lemma Qlt_or_not (x y : Q) : x < y \/ ~ x < y.
Proof.
  destruct (Qlt_le_dec x y) as [H | H]; [left; exact H | right].
  apply Qle_not_lt. exact H.
Qed.

Lemma In_range (n k : Z) : In k (range n) <-> (0 <= k < n)%Z.
Proof.
  unfold range. rewrite in_map_iff. split.
  - intros (i & <- & Hi). apply in_seq in Hi. lia.
  - intros Hk. exists (Z.to_nat k). split; [lia | apply in_seq; lia].
Qed.

Lemma range_nonpos (n : Z) : (n <= 0)%Z -> range n = [].
Proof.
  intros Hn. unfold range. replace (Z.to_nat n) with 0%nat by lia. reflexivity.
Qed.

Lemma true_div_ok (a b : Z) :
  b <> 0%Z -> true_div a b = Ok (inject_Z a / inject_Z b).
Proof.
  intros Hb. unfold true_div. destruct (Z.eqb_spec b 0); [contradiction | reflexivity].
Qed.

Lemma inject_Z_pos (n : Z) : (0 < n)%Z -> 0 < inject_Z n.
Proof.
  intros Hn. unfold Qlt, inject_Z. simpl. lia.
Qed.

Lemma Qdiv_pos (a b : Q) : 0 < a -> 0 < b -> 0 < a / b.
Proof.
  intros Ha Hb. unfold Qdiv. apply Qmult_lt_0_compat; [exact Ha |].
  apply Qinv_lt_0_compat. exact Hb.
Qed.

Lemma temperature_nonzero (kmax k : Z) :
  kmax <> 0%Z ->
  temperature kmax k = Ok (inject_Z (kmax - k) / inject_Z kmax).
Proof.
  intros Hk. apply true_div_ok. exact Hk.
Qed.

(** ** One pass of the loop *)

Section Pass.

Context {rng : Type} {np : Numpy rng}.

(** The three branches, one equation each. *)
Lemma metropolis_if (kmax k : Z) (st : state rng) (T : Q) :
  temperature kmax k = Ok T ->
  improves st ->
  metropolis kmax k st =
    Ok (true, {| x0_temp := candidate st; f0_temp := cost (candidate st);
                 x0_best := x0_best st; f0_best := f0_best st;
                 count := count st;
                 gen := snd (randn (gen st)) |}).
Proof.
  unfold improves, candidate, metropolis, neighbor.
  intros -> Hlt. destruct (randn (gen st)) as [z g1]; simpl in *.
  apply Qlt_bool_iff in Hlt. rewrite Hlt. reflexivity.
Qed.

Lemma metropolis_elif (kmax k : Z) (st : state rng) (T : Q) :
  temperature kmax k = Ok T ->
  ~ improves st ->
  metropolis_test T st ->
  metropolis kmax k st =
    Ok (true, {| x0_temp := candidate st; f0_temp := cost (candidate st);
                 x0_best := x0_best st; f0_best := f0_best st;
                 count := (count st + 1)%Z;
                 gen := snd (rand (snd (randn (gen st)))) |}).
Proof.
  unfold improves, metropolis_test, uniform_draw, candidate, metropolis,
    neighbor.
  intros -> Hn Hm. destruct (randn (gen st)) as [z g1]; simpl in *.
  apply Qlt_bool_false_iff in Hn. rewrite Hn.
  destruct (rand g1) as [u g2]; simpl in *.
  apply Qlt_bool_iff in Hm. rewrite Hm. reflexivity.
Qed.

Lemma metropolis_else (kmax k : Z) (st : state rng) (T : Q) :
  temperature kmax k = Ok T ->
  ~ improves st ->
  ~ metropolis_test T st ->
  metropolis kmax k st =
    Ok (false, {| x0_temp := x0_temp st; f0_temp := f0_temp st;
                  x0_best := x0_best st; f0_best := f0_best st;
                  count := count st;
                  gen := snd (rand (snd (randn (gen st)))) |}).
Proof.
  unfold improves, metropolis_test, uniform_draw, candidate, metropolis,
    neighbor.
  intros -> Hn Hm. destruct (randn (gen st)) as [z g1]; simpl in *.
  apply Qlt_bool_false_iff in Hn. rewrite Hn.
  destruct (rand g1) as [u g2]; simpl in *.
  apply Qlt_bool_false_iff in Hm. rewrite Hm. reflexivity.
Qed.

End Pass.

Section Claims_pass.

Context {rng : Type} {np : Numpy rng}.

Lemma temperature_in_range (kmax k : Z) :
  In k (range kmax) ->
  temperature kmax k = Ok (inject_Z (kmax - k) / inject_Z kmax).
Proof.
  intros Hk. apply In_range in Hk. apply temperature_nonzero. lia.
Qed.

(** [track_best] writes only the best pair. *)
Lemma track_best_current (st : state rng) :
  x0_temp (track_best st) = x0_temp st /\
  f0_temp (track_best st) = f0_temp st /\
  count (track_best st) = count st /\
  gen (track_best st) = gen st.
Proof.
  unfold track_best. destruct (Qlt_bool (f0_temp st) (f0_best st)); simpl; auto.
Qed.

(** C1. In every pass [k] of [range(kmax)] the candidate is accepted
    (control reaches the best-tracking statement, with [x0_temp] and
    [f0_temp] replaced by the candidate [x1] and its cost [f1]) if and
    only if [f1 < f0_temp] or [exp(-(f1 - f0_temp)/T) > rand()], where
    [T = (kmax - k) / kmax]; otherwise [x0_temp] and [f0_temp] are
    kept. *)
Theorem accept_iff (kmax k : Z) (st : state rng) :
  In k (range kmax) ->
  exists (T : Q) (acc : bool) (st1 st' : state rng),
    temperature kmax k = Ok T /\
    T == inject_Z (kmax - k) / inject_Z kmax /\
    metropolis kmax k st = Ok (acc, st1) /\
    body kmax k st = Ok st' /\
    (acc = true <-> improves st \/ metropolis_test T st) /\
    (acc = true ->
       x0_temp st' = candidate st /\ f0_temp st' = cost (candidate st)) /\
    (acc = false ->
       x0_temp st' = x0_temp st /\ f0_temp st' = f0_temp st).
Proof.
  intros Hk. pose proof (temperature_in_range kmax k Hk) as HT.
  exists (inject_Z (kmax - k) / inject_Z kmax).
  destruct (Qlt_or_not (cost (candidate st)) (f0_temp st)) as [Hi | Hi].
  - pose proof (metropolis_if kmax k st _ HT Hi) as Hm.
    eexists true, _, _. unfold body. rewrite Hm. simpl.
    repeat split; try reflexivity; try discriminate; auto;
      apply track_best_current.
  - destruct (Qlt_or_not (uniform_draw st)
                (exp (- (cost (candidate st) - f0_temp st)
                      / (inject_Z (kmax - k) / inject_Z kmax))))
      as [Hu | Hu].
    + pose proof (metropolis_elif kmax k st _ HT Hi Hu) as Hm.
      eexists true, _, _. unfold body. rewrite Hm. simpl.
      repeat split; try reflexivity; try discriminate; auto;
        apply track_best_current.
    + pose proof (metropolis_else kmax k st _ HT Hi Hu) as Hm.
      eexists false, _, _. unfold body. rewrite Hm. simpl.
      split; [exact HT |]. split; [reflexivity |].
      split; [reflexivity |]. split; [reflexivity |].
      split; [| split; [discriminate | intros _; split; reflexivity]].
      split; [discriminate |].
      intros [H | H]; [exact (False_ind _ (Hi H)) | exact (False_ind _ (Hu H))].
Qed.

(** C7. A pass that rejects its candidate (neither test holds) leaves
    [x0_temp], [f0_temp], [x0_best] and [f0_best] as they were (and
    [count] too). *)
Theorem reject_keeps_state (kmax k : Z) (st : state rng) (T : Q) :
  temperature kmax k = Ok T ->
  ~ improves st ->
  ~ metropolis_test T st ->
  exists st' : state rng,
    body kmax k st = Ok st' /\
    x0_temp st' = x0_temp st /\ f0_temp st' = f0_temp st /\
    x0_best st' = x0_best st /\ f0_best st' = f0_best st /\
    count st' = count st.
Proof.
  intros HT Hi Hu. unfold body.
  rewrite (metropolis_else kmax k st T HT Hi Hu). simpl.
  eexists. split; [reflexivity |]. simpl. repeat split.
Qed.

(** C6. With [T = (kmax - k) / kmax] and [kmax] positive, the
    temperature of every pass [k] of [range(kmax)] is computed without
    error and is strictly positive, hence not zero. *)
Theorem temperature_positive (kmax k : Z) :
  (0 < kmax)%Z ->
  (0 <= k < kmax)%Z ->
  exists T : Q,
    temperature kmax k = Ok T /\
    T = inject_Z (kmax - k) / inject_Z kmax /\
    0 < T /\ ~ T == 0.
Proof.
  intros Hmax Hk. eexists. split; [apply temperature_nonzero; lia |].
  split; [reflexivity |].
  assert (Hpos : 0 < inject_Z (kmax - k) / inject_Z kmax)
    by (apply Qdiv_pos; apply inject_Z_pos; lia).
  split; [exact Hpos |].
  intros H0. rewrite H0 in Hpos. exact (Qlt_irrefl 0 Hpos).
Qed.

End Claims_pass.

(** ** The whole loop *)

Section Run.

Context {rng : Type} {np : Numpy rng}.

Lemma loop_app (kmax : Z) (ks1 ks2 : list Z) (st : state rng) :
  loop kmax (ks1 ++ ks2) st = (st' <- loop kmax ks1 st ;; loop kmax ks2 st').
Proof.
  revert st. induction ks1 as [| k ks1 IH]; intros st; simpl; [reflexivity |].
  destruct (body kmax k st) as [st1 | e]; simpl; [apply IH | reflexivity].
Qed.

(** A pass raises only when [kmax] is zero. *)
Lemma metropolis_total (kmax k : Z) (st : state rng) :
  kmax <> 0%Z -> exists r, metropolis kmax k st = Ok r.
Proof.
  intros Hk. unfold metropolis.
  destruct (neighbor (x0_temp st) (gen st)) as [x1 g1].
  rewrite (temperature_nonzero kmax k Hk). simpl.
  destruct (Qlt_bool (cost x1) (f0_temp st)); [eexists; reflexivity |].
  destruct (rand g1) as [u g2].
  destruct (Qlt_bool u _); eexists; reflexivity.
Qed.

Lemma body_total (kmax k : Z) (st : state rng) :
  kmax <> 0%Z -> exists st', body kmax k st = Ok st'.
Proof.
  intros Hk. unfold body.
  destruct (metropolis_total kmax k st Hk) as [r ->]. simpl.
  eexists; reflexivity.
Qed.

Lemma loop_total (kmax : Z) (ks : list Z) (st : state rng) :
  ks = [] \/ kmax <> 0%Z -> exists st', loop kmax ks st = Ok st'.
Proof.
  intros [-> | Hk]; [exists st; reflexivity |].
  revert st. induction ks as [| k ks IH]; intros st; simpl.
  - exists st; reflexivity.
  - destruct (body_total kmax k st Hk) as [st1 ->]. simpl. apply IH.
Qed.

Lemma range_empty_or_nonzero (kmax : Z) : range kmax = [] \/ kmax <> 0%Z.
Proof.
  destruct (Z_le_gt_dec kmax 0) as [H | H];
    [left; apply range_nonpos; exact H | right; lia].
Qed.

Lemma prefix_empty_or_nonzero (kmax : Z) (n : nat) :
  firstn n (range kmax) = [] \/ kmax <> 0%Z.
Proof.
  destruct (range_empty_or_nonzero kmax) as [-> | H];
    [left; apply firstn_nil | right; exact H].
Qed.

Lemma anneal_total (x0 : point) (kmax : Z) (g : rng) :
  exists st, anneal x0 kmax g = Ok st.
Proof. apply loop_total, range_empty_or_nonzero. Qed.

Lemma state_at_total (x0 : point) (kmax : Z) (g : rng) (n : nat) :
  exists st, state_at x0 kmax g n = Ok st.
Proof. apply loop_total, prefix_empty_or_nonzero. Qed.

(** The run is its own last prefix. *)
Lemma state_at_end (x0 : point) (kmax : Z) (g : rng) :
  state_at x0 kmax g (Z.to_nat kmax) = anneal x0 kmax g.
Proof.
  unfold state_at, anneal. f_equal. apply firstn_all2.
  unfold range. rewrite length_map, length_seq. apply Nat.le_refl.
Qed.

(** A later prefix continues an earlier one. *)
Lemma state_at_continues (x0 : point) (kmax : Z) (g : rng) (i j : nat) :
  (i <= j)%nat ->
  exists ks : list Z,
    state_at x0 kmax g j = (st <- state_at x0 kmax g i ;; loop kmax ks st).
Proof.
  intros Hij. exists (skipn i (firstn j (range kmax))).
  unfold state_at. rewrite <- loop_app. f_equal.
  rewrite <- (firstn_skipn i (firstn j (range kmax))) at 1.
  f_equal. rewrite firstn_firstn. rewrite Nat.min_l by exact Hij. reflexivity.
Qed.

(** What one pass does to the state, read off a successful [body]. *)
Lemma body_cases (kmax k : Z) (st st' : state rng) :
  body kmax k st = Ok st' ->
  exists (acc : bool) (st1 : state rng),
    metropolis kmax k st = Ok (acc, st1) /\
    x0_best st1 = x0_best st /\ f0_best st1 = f0_best st /\
    st' = (if acc then track_best st1 else st1) /\
    (if acc
     then x0_temp st1 = candidate st /\ f0_temp st1 = cost (candidate st)
     else x0_temp st1 = x0_temp st /\ f0_temp st1 = f0_temp st).
Proof.
  unfold body, metropolis, candidate.
  destruct (neighbor (x0_temp st) (gen st)) as [x1 g1]. simpl.
  destruct (temperature kmax k) as [T | e]; simpl; [| discriminate].
  destruct (Qlt_bool (cost x1) (f0_temp st)); simpl.
  - intros [= <-]. eexists true, _. repeat split.
  - destruct (rand g1) as [u g2].
    destruct (Qlt_bool u _); simpl; intros [= <-].
    + eexists true, _. repeat split.
    + eexists false, _. repeat split.
Qed.

(** A relation that holds across every pass and is reflexive and
    transitive holds across the loop. *)
Lemma loop_relates (R : state rng -> state rng -> Prop) (kmax : Z) :
  (forall st, R st st) ->
  (forall a b c, R a b -> R b c -> R a c) ->
  (forall k st st', body kmax k st = Ok st' -> R st st') ->
  forall ks st st', loop kmax ks st = Ok st' -> R st st'.
Proof.
  intros Hrefl Htrans Hbody. induction ks as [| k ks IH]; intros st st'; simpl.
  - intros [= <-]. apply Hrefl.
  - destruct (body kmax k st) as [st1 | e] eqn:Hb; simpl; [| discriminate].
    intros Hl. apply (Htrans _ st1); [apply (Hbody k), Hb | apply IH, Hl].
Qed.

(** A property that every pass preserves is preserved by the loop. *)
Lemma loop_preserves (P : state rng -> Prop) (kmax : Z) :
  (forall k st st', body kmax k st = Ok st' -> P st -> P st') ->
  forall ks st st', loop kmax ks st = Ok st' -> P st -> P st'.
Proof.
  intros Hbody.
  apply (loop_relates (fun a b => P a -> P b)).
  - intros st H. exact H.
  - intros a b c Hab Hbc Ha. apply Hbc, Hab, Ha.
  - intros k st st' Hb. apply (Hbody k), Hb.
Qed.

End Run.

Section Claims_run.

Context {rng : Type} {np : Numpy rng}.

Lemma init_consistent (x0 : point) (g : rng) : consistent (init x0 g).
Proof. split; reflexivity. Qed.

Lemma track_best_consistent (st : state rng) :
  consistent st -> consistent (track_best st).
Proof.
  intros [Ht Hb]. unfold track_best.
  destruct (Qlt_bool (f0_temp st) (f0_best st)); split; simpl; assumption.
Qed.

Lemma metropolis_consistent (kmax k : Z) (st st1 : state rng) (acc : bool) :
  metropolis kmax k st = Ok (acc, st1) -> consistent st -> consistent st1.
Proof.
  unfold metropolis, consistent.
  destruct (neighbor (x0_temp st) (gen st)) as [x1 g1].
  destruct (temperature kmax k) as [T | e]; simpl; [| discriminate].
  destruct (Qlt_bool (cost x1) (f0_temp st)).
  - intros [= <- <-] [Ht Hb]. simpl. auto.
  - destruct (rand g1) as [u g2].
    destruct (Qlt_bool u _); intros [= <- <-] [Ht Hb]; simpl; auto.
Qed.

Lemma body_consistent (kmax k : Z) (st st' : state rng) :
  body kmax k st = Ok st' -> consistent st -> consistent st'.
Proof.
  intros Hb Hc. destruct (body_cases kmax k st st' Hb)
    as (acc & st1 & Hm & _ & _ & -> & _).
  pose proof (metropolis_consistent kmax k st st1 acc Hm Hc) as Hc1.
  destruct acc; [apply track_best_consistent |]; exact Hc1.
Qed.

(** C8. After the initialisation, at the end of every pass and
    between the accept/reject statement and the best-tracking
    statement of the next pass, [f0_best] is the cost of [x0_best]
    (and [f0_temp] the cost of [x0_temp]). *)
Theorem best_cost_is_cost_of_best
  (x0 : point) (kmax : Z) (g : rng) (n : nat) :
  exists st : state rng,
    state_at x0 kmax g n = Ok st /\
    f0_best st = cost (x0_best st) /\
    f0_temp st = cost (x0_temp st) /\
    (forall k acc st1, metropolis kmax k st = Ok (acc, st1) ->
       f0_best st1 = cost (x0_best st1)).
Proof.
  destruct (state_at_total x0 kmax g n) as [st Hst]. exists st.
  assert (Hc : consistent st).
  { apply (loop_preserves consistent kmax (body_consistent kmax) _ _ _ Hst).
    apply init_consistent. }
  split; [exact Hst |]. split; [apply Hc |]. split; [apply Hc |].
  intros k acc st1 Hm.
  apply (metropolis_consistent kmax k st st1 acc Hm Hc).
Qed.

(** The best pair after one pass: replaced by the new current pair
    exactly when the candidate was accepted and its cost is strictly
    below [f0_best]; untouched otherwise. *)
Lemma body_best (kmax k : Z) (st st' : state rng) :
  body kmax k st = Ok st' ->
  exists (acc : bool) (st1 : state rng),
    metropolis kmax k st = Ok (acc, st1) /\
    if acc && Qlt_bool (f0_temp st1) (f0_best st)
    then x0_best st' = x0_temp st' /\ f0_best st' = f0_temp st' /\
         f0_temp st' = f0_temp st1 /\ f0_best st' < f0_best st
    else x0_best st' = x0_best st /\ f0_best st' = f0_best st.
Proof.
  intros Hb. destruct (body_cases kmax k st st' Hb)
    as (acc & st1 & Hm & Hxb & Hfb & -> & _).
  exists acc, st1. split; [exact Hm |].
  destruct acc; simpl; [| auto].
  unfold track_best. rewrite Hfb.
  destruct (Qlt_bool (f0_temp st1) (f0_best st)) eqn:Hlt; simpl; [| auto].
  repeat split. apply Qlt_bool_iff. exact Hlt.
Qed.

Lemma body_best_le (kmax k : Z) (st st' : state rng) :
  body kmax k st = Ok st' -> f0_best st' <= f0_best st.
Proof.
  intros Hb. destruct (body_best kmax k st st' Hb) as (acc & st1 & _ & H).
  destruct (acc && Qlt_bool (f0_temp st1) (f0_best st)).
  - apply Qlt_le_weak. apply H.
  - destruct H as [_ ->]. apply Qle_refl.
Qed.

Lemma loop_best_le (kmax : Z) (ks : list Z) (st st' : state rng) :
  loop kmax ks st = Ok st' -> f0_best st' <= f0_best st.
Proof.
  apply (loop_relates (fun a b => f0_best b <= f0_best a)).
  - intros a. apply Qle_refl.
  - intros a b c Hab Hbc. apply (Qle_trans _ (f0_best b)); assumption.
  - intros k a b. apply body_best_le.
Qed.

(** C2. Along a run [f0_best] is non-increasing in the number of
    passes made; in every pass the best pair changes only when the
    candidate was accepted and the new [f0_temp] is strictly below
    [f0_best], and then to that strictly smaller cost. *)
Theorem best_cost_non_increasing
  (x0 : point) (kmax : Z) (g : rng) (i j : nat) :
  (i <= j)%nat ->
  (exists si sj : state rng,
      state_at x0 kmax g i = Ok si /\
      state_at x0 kmax g j = Ok sj /\
      f0_best sj <= f0_best si) /\
  (forall (k : Z) (st st' : state rng),
      body kmax k st = Ok st' ->
      exists (acc : bool) (st1 : state rng),
        metropolis kmax k st = Ok (acc, st1) /\
        if acc && Qlt_bool (f0_temp st1) (f0_best st)
        then x0_best st' = x0_temp st' /\ f0_best st' = f0_temp st' /\
             f0_temp st' = f0_temp st1 /\ f0_best st' < f0_best st
        else x0_best st' = x0_best st /\ f0_best st' = f0_best st).
Proof.
  intros Hij. split; [| exact (body_best kmax)].
  destruct (state_at_total x0 kmax g i) as [si Hi].
  destruct (state_at_total x0 kmax g j) as [sj Hj].
  exists si, sj. split; [exact Hi |]. split; [exact Hj |].
  destruct (state_at_continues x0 kmax g i j Hij) as [ks Hks].
  rewrite Hi, Hj in Hks. simpl in Hks. symmetry in Hks.
  apply (loop_best_le kmax ks si sj Hks).
Qed.

End Claims_run.

Section Claims_result.

Context {rng : Type} {np : Numpy rng}.

Lemma body_initial_or_better (x0 : point) (kmax k : Z) (st st' : state rng) :
  body kmax k st = Ok st' ->
  initial_or_better x0 st -> initial_or_better x0 st'.
Proof.
  intros Hb Hst. destruct (body_best kmax k st st' Hb) as (acc & st1 & _ & H).
  destruct (acc && Qlt_bool (f0_temp st1) (f0_best st)).
  - destruct H as (_ & _ & _ & Hlt). right.
    destruct Hst as [[_ Heq] | Hlt0].
    + rewrite <- Heq. exact Hlt.
    + apply (Qlt_trans _ (f0_best st)); assumption.
  - destruct H as [Hx Hf]. unfold initial_or_better. rewrite Hx, Hf. exact Hst.
Qed.

Lemma initial_or_better_le (x0 : point) (st : state rng) :
  initial_or_better x0 st -> f0_best st <= cost x0.
Proof.
  intros [[_ ->] | Hlt]; [apply Qle_refl | apply Qlt_le_weak, Hlt].
Qed.

(** The best cost of a finished run never exceeds the initial cost. *)
Lemma anneal_best_bound (x0 : point) (kmax : Z) (g : rng) (st : state rng) :
  anneal x0 kmax g = Ok st ->
  initial_or_better x0 st /\ consistent st.
Proof.
  intros Hst. split.
  - apply (loop_preserves (initial_or_better x0) kmax
             (body_initial_or_better x0 kmax) _ _ _ Hst).
    left. split; reflexivity.
  - apply (loop_preserves consistent kmax (body_consistent kmax) _ _ _ Hst).
    apply init_consistent.
Qed.

(** C3, as the cell has it. The run always ends, and its best cost is
    at most the cost of the initial point: [f0_best] (and the printed
    [rosenbrock] of [x0_best]) is the initial cost, with [x0_best]
    still the initial point, or it is strictly below the initial
    cost. *)
Theorem best_cost_le_initial (x0 : point) (kmax : Z) (g : rng) :
  exists st : state rng,
    anneal x0 kmax g = Ok st /\
    f0_best st <= cost x0 /\
    snd (fst (report st)) <= cost x0 /\
    ((x0_best st = x0 /\ f0_best st = cost x0) \/ f0_best st < cost x0).
Proof.
  destruct (anneal_total x0 kmax g) as [st Hst]. exists st.
  destruct (anneal_best_bound x0 kmax g st Hst) as [Hb [_ Hc]].
  split; [exact Hst |].
  split; [apply initial_or_better_le, Hb |].
  split; [| exact Hb].
  simpl. rewrite <- Hc. apply initial_or_better_le, Hb.
Qed.

(** C4, as the cell has it. For [kmax <= 0] the run raises nothing:
    [range(kmax)] is empty, no pass is made, and the state at the end
    is the initial one. *)
Theorem nonpositive_kmax_returns_initial (x0 : point) (kmax : Z) (g : rng) :
  (kmax <= 0)%Z ->
  anneal x0 kmax g = Ok (init x0 g) /\
  (forall n, state_at x0 kmax g n = Ok (init x0 g)) /\
  report (init x0 g) = (x0, cost x0, 0%Z).
Proof.
  intros Hk. unfold anneal, state_at. rewrite (range_nonpos kmax Hk).
  split; [reflexivity |]. split; [| reflexivity].
  intros n. rewrite firstn_nil. reflexivity.
Qed.

Lemma neighbor_eq (p : point) (g : rng) :
  neighbor p g = (add_scalar p (fst (randn g)), snd (randn g)).
Proof. unfold neighbor. destruct (randn g); reflexivity. Qed.




(** The cost that the cell prints is the tracked [f0_best]. *)
Lemma report_cost_is_f0_best (x0 : point) (kmax : Z) (g : rng) (st : state rng) :
  anneal x0 kmax g = Ok st -> snd (fst (report st)) = f0_best st.
Proof.
  intros Hst. destruct (anneal_best_bound x0 kmax g st Hst) as [_ [_ Hc]].
  simpl. symmetry. exact Hc.
Qed.

(** The cell raises nothing: it prints a point, a cost and a count. *)
Lemma cell16_returns (g : rng) : exists r, cell16 g = Ok r.
Proof.
  unfold cell16. destruct (draw_x0 g) as [x0 g0].
  destruct (anneal_total x0 1000 g0) as [st ->]. simpl.
  eexists; reflexivity.
Qed.

End Claims_result.

(** ** Draws and determinism *)

Section Draw_order.

Context {rng : Type} {np : Numpy rng}.

(** The generator after a pass: one [randn] draw, followed by one
    [rand] draw when the candidate does not improve on [f0_temp]. *)
Lemma body_gen (kmax k : Z) (st : state rng) :
  kmax <> 0%Z ->
  exists st' : state rng,
    body kmax k st = Ok st' /\
    gen st' =
      if Qlt_bool (cost (candidate st)) (f0_temp st)
      then snd (randn (gen st))
      else snd (rand (snd (randn (gen st)))).
Proof.
  intros Hk. unfold body, metropolis, candidate. rewrite neighbor_eq. simpl.
  rewrite (temperature_nonzero kmax k Hk). simpl.
  destruct (Qlt_bool _ (f0_temp st)); simpl.
  - eexists. split; [reflexivity |]. apply track_best_current.
  - destruct (rand (snd (randn (gen st)))) as [u g2]. simpl.
    destruct (Qlt_bool u _); simpl; eexists; (split; [reflexivity |]).
    + apply track_best_current.
    + reflexivity.
Qed.

End Draw_order.

Section Two_generators.

Context {A B : Type} {npA : Numpy A} {npB : Numpy B}.
Variable R : A -> B -> Prop.
Hypothesis same_exp : forall q : Q, @exp A npA q = @exp B npB q.
Hypothesis draws : same_draws R.

Lemma track_best_rel (sa : state A) (sb : state B) :
  state_rel R sa sb -> state_rel R (track_best sa) (track_best sb).
Proof.
  intros [(Hx & Hf & Hxb & Hfb & Hc) Hg]. unfold track_best.
  rewrite Hf, Hfb. destruct (Qlt_bool (f0_temp sb) (f0_best sb)).
  - repeat split; simpl; assumption.
  - repeat split; assumption.
Qed.

Lemma metropolis_rel (kmax k : Z) (sa : state A) (sb : state B) :
  state_rel R sa sb ->
  result_rel (fun ra rb => fst ra = fst rb /\ state_rel R (snd ra) (snd rb))
    (metropolis kmax k sa) (metropolis kmax k sb).
Proof.
  intros [(Hx & Hf & Hxb & Hfb & Hc) Hg]. unfold metropolis.
  rewrite !neighbor_eq.
  destruct (draws _ _ Hg) as [[Hz Hg1] _].
  rewrite Hx, Hf, Hz.
  destruct (temperature kmax k) as [T | e]; simpl; [| reflexivity].
  destruct (Qlt_bool _ (f0_temp sb)); simpl.
  - repeat split; simpl; assumption.
  - destruct (draws _ _ Hg1) as [_ [Hu Hg2]].
    destruct (rand (snd (randn (gen sa)))) as [ua ga2].
    destruct (rand (snd (randn (gen sb)))) as [ub gb2].
    simpl in Hu, Hg2. subst ub. rewrite same_exp.
    destruct (Qlt_bool ua _); simpl; repeat split; simpl;
      try assumption. rewrite Hc. reflexivity.
Qed.

Lemma body_rel (kmax k : Z) (sa : state A) (sb : state B) :
  state_rel R sa sb ->
  result_rel (state_rel R) (body kmax k sa) (body kmax k sb).
Proof.
  intros Hs. pose proof (metropolis_rel kmax k sa sb Hs) as Hm.
  unfold body.
  destruct (metropolis kmax k sa) as [[acca sa1] | ea],
           (metropolis kmax k sb) as [[accb sb1] | eb];
    simpl in *; try contradiction; [| exact Hm].
  destruct Hm as [<- Hs1]. destruct acca; [apply track_best_rel |]; exact Hs1.
Qed.

Lemma loop_rel (kmax : Z) (ks : list Z) (sa : state A) (sb : state B) :
  state_rel R sa sb ->
  result_rel (state_rel R) (loop kmax ks sa) (loop kmax ks sb).
Proof.
  revert sa sb. induction ks as [| k ks IH]; intros sa sb Hs; simpl.
  - exact Hs.
  - pose proof (body_rel kmax k sa sb Hs) as Hb.
    destruct (body kmax k sa) as [sa1 | ea], (body kmax k sb) as [sb1 | eb];
      simpl in *; try contradiction; [apply IH, Hb | exact Hb].
Qed.

(** Two runs whose generators deliver the same numbers end in the
    same variables. *)
Lemma anneal_rel (x0 : point) (kmax : Z) (a : A) (b : B) :
  R a b ->
  exists (sa : state A) (sb : state B),
    anneal x0 kmax a = Ok sa /\ anneal x0 kmax b = Ok sb /\
    state_rel R sa sb.
Proof.
  intros Hab.
  destruct (anneal_total x0 kmax a) as [sa Ha].
  destruct (anneal_total x0 kmax b) as [sb Hb].
  exists sa, sb. split; [exact Ha |]. split; [exact Hb |].
  assert (H : result_rel (state_rel R) (anneal x0 kmax a) (anneal x0 kmax b)).
  { apply loop_rel. repeat split. exact Hab. }
  rewrite Ha, Hb in H. exact H.
Qed.

End Two_generators.

(** ** The cell on a tape *)

(** The three passes of the demonstration run. *)
Example demo_first_pass_rejects :
  metropolis 3 0 (init demo_x0 demo_tape)
  = Ok (false, {| x0_temp := (0, 1); f0_temp := cost (0, 1);
                  x0_best := (0, 1); f0_best := cost (0, 1);
                  count := 0%Z; gen := [- 1 # 4; 1 # 5; 0; 1 # 7] |}).
Proof. reflexivity. Qed.

Example demo_run_ends :
  exists st : state tape,
    anneal demo_x0 3 demo_tape = Ok st /\
    x0_temp st = (- 1 # 20, 19 # 20) /\ x0_best st = (- 1 # 4, 3 # 4) /\
    count st = 1%Z /\ gen st = [1 # 7].
Proof. eexists. split; [reflexivity |]. repeat split. Qed.

(** With [kmax = 0] a pass, if one were made, would raise on the
    temperature; the loop makes none. *)
Example body_kmax_zero_raises :
  body 0 0 (init demo_x0 demo_tape) = Raise ZeroDivisionError.
Proof. reflexivity. Qed.

Lemma accept_iff_witness :
  In 0%Z (range 3) /\
  exists (T : Q) (acc : bool) (st1 st' : state tape),
    temperature 3 0 = Ok T /\
    T == inject_Z (3 - 0) / inject_Z 3 /\
    metropolis 3 0 (init demo_x0 demo_tape) = Ok (acc, st1) /\
    body 3 0 (init demo_x0 demo_tape) = Ok st' /\
    (acc = true <->
       improves (init demo_x0 demo_tape) \/
       metropolis_test T (init demo_x0 demo_tape)) /\
    (acc = true ->
       x0_temp st' = candidate (init demo_x0 demo_tape) /\
       f0_temp st' = cost (candidate (init demo_x0 demo_tape))) /\
    (acc = false ->
       x0_temp st' = x0_temp (init demo_x0 demo_tape) /\
       f0_temp st' = f0_temp (init demo_x0 demo_tape)).
Proof.
  split; [left; reflexivity |].
  apply (accept_iff 3 0 (init demo_x0 demo_tape)). left; reflexivity.
Defined.

Lemma reject_keeps_state_witness :
  temperature 3 0 = Ok (inject_Z (3 - 0) / inject_Z 3) /\
  ~ improves (init demo_x0 demo_tape) /\
  ~ metropolis_test (inject_Z (3 - 0) / inject_Z 3) (init demo_x0 demo_tape) /\
  exists st' : state tape,
    body 3 0 (init demo_x0 demo_tape) = Ok st' /\
    x0_temp st' = demo_x0 /\ f0_temp st' = cost demo_x0 /\
    x0_best st' = demo_x0 /\ f0_best st' = cost demo_x0 /\
    count st' = 0%Z.
Proof.
  assert (HT : temperature 3 0 = Ok (inject_Z (3 - 0) / inject_Z 3))
    by reflexivity.
  assert (Hi : ~ improves (init demo_x0 demo_tape))
    by (vm_compute; discriminate).
  assert (Hu : ~ metropolis_test (inject_Z (3 - 0) / inject_Z 3)
                 (init demo_x0 demo_tape))
    by (vm_compute; discriminate).
  split; [exact HT |]. split; [exact Hi |]. split; [exact Hu |].
  exact (reject_keeps_state 3 0 (init demo_x0 demo_tape) _ HT Hi Hu).
Defined.

Lemma temperature_positive_witness :
  (0 < 1000)%Z /\ (0 <= 999 < 1000)%Z /\
  exists T : Q,
    temperature 1000 999 = Ok T /\
    T = inject_Z (1000 - 999) / inject_Z 1000 /\
    0 < T /\ ~ T == 0.
Proof.
  split; [lia |]. split; [lia |].
  apply (temperature_positive 1000 999); lia.
Defined.

Lemma best_cost_is_cost_of_best_witness :
  exists st : state tape,
    state_at demo_x0 3 demo_tape 2 = Ok st /\
    f0_best st = cost (x0_best st) /\
    f0_temp st = cost (x0_temp st) /\
    (forall k acc st1, metropolis 3 k st = Ok (acc, st1) ->
       f0_best st1 = cost (x0_best st1)).
Proof. exact (best_cost_is_cost_of_best demo_x0 3 demo_tape 2). Defined.

Lemma best_cost_non_increasing_witness :
  (1 <= 3)%nat /\
  exists si sj : state tape,
    state_at demo_x0 3 demo_tape 1 = Ok si /\
    state_at demo_x0 3 demo_tape 3 = Ok sj /\
    f0_best sj <= f0_best si.
Proof.
  split; [lia |].
  apply (best_cost_non_increasing demo_x0 3 demo_tape 1 3). lia.
Defined.

Lemma best_cost_le_initial_witness :
  exists st : state tape,
    anneal demo_x0 3 demo_tape = Ok st /\
    f0_best st <= cost demo_x0 /\
    snd (fst (report st)) <= cost demo_x0 /\
    ((x0_best st = demo_x0 /\ f0_best st = cost demo_x0) \/
     f0_best st < cost demo_x0).
Proof. exact (best_cost_le_initial demo_x0 3 demo_tape). Defined.

Lemma nonpositive_kmax_returns_initial_witness :
  (-2 <= 0)%Z /\
  anneal demo_x0 (-2) demo_tape = Ok (init demo_x0 demo_tape) /\
  (forall n, state_at demo_x0 (-2) demo_tape n = Ok (init demo_x0 demo_tape)) /\
  report (init demo_x0 demo_tape) = (demo_x0, cost demo_x0, 0%Z).
Proof.
  split; [lia |].
  apply (nonpositive_kmax_returns_initial demo_x0 (-2) demo_tape). lia.
Defined.

Lemma tape_same_draws : @same_draws tape tape tape_numpy tape_numpy eq.
Proof. intros a b ->. repeat split. Defined.

(** The claim that [kmax = 0] raises, refuted on the cell: the run
    returns, in its initial state. *)
Lemma kmax_zero_raises_nothing :
  anneal demo_x0 0 demo_tape = Ok (init demo_x0 demo_tape) /\
  (forall e : exn, anneal demo_x0 0 demo_tape <> Raise e) /\
  state_at demo_x0 0 demo_tape 1 = Ok (init demo_x0 demo_tape).
Proof. repeat split. intros e. discriminate. Qed.

(** The claim that the best cost of a run may exceed the initial cost,
    refuted: no run, on any generator and with any [exp], ends with a
    best cost that is not at most the cost of its initial point. *)
Lemma best_cost_above_initial_impossible :
  ~ exists (rng : Type) (np : Numpy rng)
      (x0 : point) (kmax : Z) (g : rng) (st : state rng),
      anneal x0 kmax g = Ok st /\ ~ f0_best st <= cost x0.
Proof.
  intros (rng & np & x0 & kmax & g & st & Hst & Hn). apply Hn.
  apply initial_or_better_le. apply (anneal_best_bound x0 kmax g st Hst).
Qed.

(** C5. On the point [(0, 1)] with the normal draws [1/2], [1/3], [1/5]
    ahead, the candidate is [(0 + 1/2, 1 + 1/2)] and one draw is
    consumed: the second coordinate does not get a draw of its own
    (that would be [1 + 1/3], with two draws consumed). *)
Theorem neighbor_one_draw_for_both_coordinates :
  neighbor (0, 1) [1 # 2; 1 # 3; 1 # 5]
  = ((0 + (1 # 2), 1 + (1 # 2)), [1 # 3; 1 # 5]) /\
  ~ snd (fst (neighbor (0, 1) [1 # 2; 1 # 3; 1 # 5])) == 1 + (1 # 3) /\
  snd (neighbor (0, 1) [1 # 2; 1 # 3; 1 # 5]) <> [1 # 5].
Proof.
  split; [reflexivity |]. split; [vm_compute | ]; discriminate.
Qed.

(** ** The cost function *)

Lemma Qsquare_nonneg (q : Q) : 0 <= q ^ 2.
Proof. simpl. nra. Qed.

Lemma Qsquare_zero (q : Q) : q ^ 2 == 0 -> q == 0.
Proof. simpl. intros H. nra. Qed.

Lemma rosenbrock_ge_0 (x y a B : Q) : 0 <= B -> 0 <= rosenbrock x y a B.
Proof.
  intros HB. unfold rosenbrock.
  pose proof (Qsquare_nonneg (a - x)) as H1.
  pose proof (Qsquare_nonneg (y - x ^ 2)) as H2.
  nra.
Qed.

Lemma rosenbrock_eq_0 (x y a B : Q) :
  0 < B -> rosenbrock x y a B == 0 -> x == a /\ y == a ^ 2.
Proof.
  intros HB H. unfold rosenbrock in H.
  pose proof (Qsquare_nonneg (a - x)) as H1.
  pose proof (Qsquare_nonneg (y - x ^ 2)) as H2.
  assert (Ha : (a - x) ^ 2 == 0) by nra.
  assert (Hy : (y - x ^ 2) ^ 2 == 0) by nra.
  apply Qsquare_zero in Ha, Hy.
  assert (Hx : x == a) by lra.
  split; [exact Hx |]. rewrite <- Hx. lra.
Qed.

Lemma cost_nonneg (p : point) : 0 <= cost p.
Proof. apply rosenbrock_ge_0. lra. Qed.

Lemma cost_eq_0 (p : point) : cost p == 0 -> fst p == 1 /\ snd p == 1.
Proof.
  intros H. apply rosenbrock_eq_0 in H; [| lra].
  destruct H as [Hx Hy]. split; [exact Hx |]. rewrite Hy. reflexivity.
Qed.

(** X1. For a non-negative weight [B] the Rosenbrock function is
    nowhere negative; so is the cost, which has [B = 100]. *)
Theorem rosenbrock_nonneg (x y a B : Q) :
  0 <= B -> 0 <= rosenbrock x y a B /\ 0 <= cost (x, y).
Proof.
  intros HB. split; [apply rosenbrock_ge_0, HB | apply cost_nonneg].
Qed.

(** X2. The cost, which is the Rosenbrock function with the defaults
    [a = 1] and [B = 100], is zero at [(1, 1)] and nowhere else. *)
Theorem cost_zero_iff (x y : Q) :
  cost (x, y) == 0 <-> x == 1 /\ y == 1.
Proof.
  split.
  - apply (cost_eq_0 (x, y)).
  - intros [Hx Hy]. unfold cost, rosenbrock. simpl fst; simpl snd.
    rewrite Hx, Hy. reflexivity.
Qed.

(** ** The counter and the current cost *)

Section More_run.

Context {rng : Type} {np : Numpy rng}.

(** The state after one more pass: the next index of [range(kmax)], if
    there is one, runs the body once more. *)
Lemma state_at_S (x0 : point) (kmax : Z) (g : rng) (n : nat) :
  state_at x0 kmax g (S n) =
    (st <- state_at x0 kmax g n ;;
     match nth_error (range kmax) n with
     | Some k => body kmax k st
     | None => Ok st
     end).
Proof.
  unfold state_at.
  assert (H : forall (l : list Z) (m : nat),
             firstn (S m) l = firstn m l ++
               match nth_error l m with Some k => [k] | None => [] end).
  { induction l as [| a l IH]; intros [| m]; simpl; try reflexivity.
    rewrite <- IH. reflexivity. }
  rewrite H, loop_app.
  destruct (loop kmax (firstn n (range kmax)) (init x0 g)) as [st | e];
    simpl; [| reflexivity].
  destruct (nth_error (range kmax) n) as [k |]; simpl; [| reflexivity].
  destruct (body kmax k st); reflexivity.
Qed.

Lemma state_at_continues_length
  (x0 : point) (kmax : Z) (g : rng) (i j : nat) :
  (i <= j)%nat ->
  exists ks : list Z,
    (length ks <= j - i)%nat /\
    (passes kmax j = passes kmax i + length ks)%nat /\
    state_at x0 kmax g j = (st <- state_at x0 kmax g i ;; loop kmax ks st).
Proof.
  intros Hij. exists (skipn i (firstn j (range kmax))).
  assert (Hf : firstn i (firstn j (range kmax)) = firstn i (range kmax)).
  { rewrite firstn_firstn, Nat.min_l by exact Hij. reflexivity. }
  split; [| split].
  - rewrite length_skipn, length_firstn. lia.
  - unfold passes. rewrite <- Hf.
    rewrite <- (firstn_skipn i (firstn j (range kmax))) at 1.
    apply length_app.
  - unfold state_at. rewrite <- loop_app. f_equal.
    rewrite <- (firstn_skipn i (firstn j (range kmax))) at 1.
    f_equal. exact Hf.
Qed.

(** What one pass does to the counter and to the current cost. *)
Lemma body_count (kmax k : Z) (st st' : state rng) :
  body kmax k st = Ok st' ->
  (count st' = count st /\ x0_temp st' = candidate st /\
   f0_temp st' = cost (candidate st) /\ f0_temp st' < f0_temp st) \/
  (count st' = (count st + 1)%Z /\ x0_temp st' = candidate st /\
   f0_temp st' = cost (candidate st) /\ f0_temp st <= f0_temp st') \/
  (count st' = count st /\ x0_temp st' = x0_temp st /\
   f0_temp st' = f0_temp st /\ f0_temp st <= cost (candidate st)).
Proof.
  unfold body, metropolis, candidate.
  destruct (neighbor (x0_temp st) (gen st)) as [x1 g1]. simpl.
  destruct (temperature kmax k) as [T | e]; simpl; [| discriminate].
  destruct (Qlt_bool (cost x1) (f0_temp st)) eqn:Hlt; simpl.
  - intros [= <-]. left. apply Qlt_bool_iff in Hlt.
    pose proof (track_best_current
                  {| x0_temp := x1; f0_temp := cost x1;
                     x0_best := x0_best st; f0_best := f0_best st;
                     count := count st; gen := g1 |}) as (Hx & Hf & Hc & _).
    rewrite Hx, Hf, Hc. simpl. auto.
  - apply Qlt_bool_false_iff, Qnot_lt_le in Hlt.
    destruct (rand g1) as [u g2].
    destruct (Qlt_bool u _); simpl; intros [= <-].
    + right; left.
      pose proof (track_best_current
                    {| x0_temp := x1; f0_temp := cost x1;
                       x0_best := x0_best st; f0_best := f0_best st;
                       count := (count st + 1)%Z; gen := g2 |})
        as (Hx & Hf & Hc & _).
      rewrite Hx, Hf, Hc. simpl. auto.
    + right; right. simpl. auto.
Qed.

Lemma loop_count (kmax : Z) (ks : list Z) (st st' : state rng) :
  loop kmax ks st = Ok st' ->
  (0 <= count st' - count st <= Z.of_nat (length ks))%Z.
Proof.
  revert st. induction ks as [| k ks IH]; intros st; simpl.
  - intros [= <-]. lia.
  - destruct (body kmax k st) as [st1 | e] eqn:Hb; simpl; [| discriminate].
    intros Hl. apply IH in Hl.
    destruct (body_count kmax k st st1 Hb)
      as [(Hc & _) | [(Hc & _) | (Hc & _)]]; lia.
Qed.

(** X3. Along a run the counter never decreases and grows by at most
    one per pass: between [i] and [j] passes it has grown by at most
    [j - i], and it always lies between [0] and the number of passes
    made, hence below [kmax] when [kmax] is positive. *)
Theorem count_bounds (x0 : point) (kmax : Z) (g : rng) (i j : nat) :
  (i <= j)%nat ->
  exists si sj : state rng,
    state_at x0 kmax g i = Ok si /\
    state_at x0 kmax g j = Ok sj /\
    (0 <= count sj - count si <= Z.of_nat (j - i))%Z /\
    (0 <= count sj <= Z.of_nat (passes kmax j))%Z /\
    (count sj <= Z.max 0 kmax)%Z.
Proof.
  intros Hij.
  destruct (state_at_total x0 kmax g i) as [si Hi].
  destruct (state_at_total x0 kmax g j) as [sj Hj].
  exists si, sj. split; [exact Hi |]. split; [exact Hj |].
  destruct (state_at_continues_length x0 kmax g i j Hij) as (ks & Hlen & _ & Hks).
  rewrite Hi, Hj in Hks. simpl in Hks. symmetry in Hks.
  apply loop_count in Hks.
  assert (H0 : (0 <= count sj <= Z.of_nat (passes kmax j))%Z).
  { unfold state_at in Hj. apply loop_count in Hj. simpl in Hj.
    unfold passes. lia. }
  split; [lia |]. split; [exact H0 |].
  assert (Hp : (passes kmax j <= Z.to_nat kmax)%nat).
  { unfold passes, range. rewrite length_firstn, length_map, length_seq. lia. }
  lia.
Qed.

(** X4. Between [n] and [n + 1] passes of a run the counter grows by
    one exactly when the pass replaces the current point by a candidate
    that does not improve on the current cost; when the candidate
    improves, the current cost strictly decreases and the counter
    stays; when the candidate is rejected, or when the run is already
    over, current point, current cost and counter stay. *)
Theorem count_counts_uphill_moves
  (x0 : point) (kmax : Z) (g : rng) (n : nat) :
  exists s s' : state rng,
    state_at x0 kmax g n = Ok s /\
    state_at x0 kmax g (S n) = Ok s' /\
    ((count s' = count s /\ x0_temp s' = candidate s /\
      f0_temp s' = cost (candidate s) /\ f0_temp s' < f0_temp s) \/
     (count s' = (count s + 1)%Z /\ x0_temp s' = candidate s /\
      f0_temp s' = cost (candidate s) /\ f0_temp s <= f0_temp s') \/
     (count s' = count s /\ x0_temp s' = x0_temp s /\
      f0_temp s' = f0_temp s /\
      (f0_temp s <= cost (candidate s) \/ (Z.to_nat kmax <= n)%nat))).
Proof.
  destruct (state_at_total x0 kmax g n) as [s Hs].
  destruct (state_at_total x0 kmax g (S n)) as [s' Hs'].
  exists s, s'. split; [exact Hs |]. split; [exact Hs' |].
  rewrite state_at_S, Hs in Hs'. simpl in Hs'.
  destruct (nth_error (range kmax) n) as [k |] eqn:Hn.
  - destruct (body_count kmax k s s' Hs') as [H | [H | (Hc & Hx & Hf & Hle)]].
    + left. exact H.
    + right; left. exact H.
    + right; right. repeat split; try assumption. left. exact Hle.
  - injection Hs' as <-. right; right. repeat split. right.
    apply nth_error_None in Hn. unfold range in Hn.
    rewrite length_map, length_seq in Hn. exact Hn.
Qed.

End More_run.

(** ** Best cost and current cost *)

Section Best_and_current.

Context {rng : Type} {np : Numpy rng}.

Lemma body_best_le_current (kmax k : Z) (st st' : state rng) :
  body kmax k st = Ok st' ->
  f0_best st <= f0_temp st -> f0_best st' <= f0_temp st'.
Proof.
  intros Hb Hle. destruct (body_cases kmax k st st' Hb)
    as (acc & st1 & _ & _ & Hfb & -> & Hcur).
  destruct acc.
  - unfold track_best.
    destruct (Qlt_bool (f0_temp st1) (f0_best st1)) eqn:Hlt; simpl.
    + apply Qle_refl.
    + apply Qlt_bool_false_iff, Qnot_lt_le in Hlt. exact Hlt.
  - destruct Hcur as [_ Hf]. rewrite Hfb, Hf. exact Hle.
Qed.

Lemma state_at_best_le_current
  (x0 : point) (kmax : Z) (g : rng) (n : nat) (st : state rng) :
  state_at x0 kmax g n = Ok st -> f0_best st <= f0_temp st.
Proof.
  intros Hst.
  apply (loop_preserves (fun s => f0_best s <= f0_temp s) kmax
           (body_best_le_current kmax) _ _ _ Hst).
  apply Qle_refl.
Qed.

(** X5. At every point of a run the best cost is at most the current
    cost. *)
Theorem best_cost_le_current_cost
  (x0 : point) (kmax : Z) (g : rng) (n : nat) :
  exists st : state rng,
    state_at x0 kmax g n = Ok st /\ f0_best st <= f0_temp st.
Proof.
  destruct (state_at_total x0 kmax g n) as [st Hst]. exists st.
  split; [exact Hst | apply (state_at_best_le_current x0 kmax g n st Hst)].
Qed.

(** The best pair after [j] passes is the current pair after some
    [i <= j] passes. *)
Lemma best_is_some_current (x0 : point) (kmax : Z) (g : rng) (j : nat) :
  exists (sj : state rng) (i : nat) (si : state rng),
    state_at x0 kmax g j = Ok sj /\ (i <= j)%nat /\
    state_at x0 kmax g i = Ok si /\
    x0_best sj = x0_temp si /\ f0_best sj = f0_temp si.
Proof.
  induction j as [| j IH].
  - exists (init x0 g), 0%nat, (init x0 g). repeat split. apply Nat.le_refl.
  - destruct IH as (sj & i & si & Hj & Hij & Hi & Hx & Hf).
    destruct (state_at_total x0 kmax g (S j)) as [s' Hs'].
    pose proof Hs' as Hstep. rewrite state_at_S, Hj in Hstep. simpl in Hstep.
    destruct (nth_error (range kmax) j) as [k |].
    + destruct (body_best kmax k sj s' Hstep) as (acc & st1 & _ & H).
      destruct (acc && Qlt_bool (f0_temp st1) (f0_best sj)).
      * destruct H as (Hxb & Hfb & _). exists s', (S j), s'.
        split; [exact Hs' |]. split; [apply Nat.le_refl |]. auto.
      * destruct H as [Hxb Hfb]. exists s', i, si.
        split; [exact Hs' |]. split; [lia |]. split; [exact Hi |].
        rewrite Hxb, Hfb. auto.
    + injection Hstep as <-. exists sj, i, si.
      split; [exact Hs' |]. split; [lia |]. auto.
Qed.

(** X6. The best cost after [j] passes is the least current cost seen
    so far: it is at most the current cost after every [i <= j]
    passes, and the best pair is the current pair after one of
    them. *)
Theorem best_cost_is_least_current_cost
  (x0 : point) (kmax : Z) (g : rng) (j : nat) :
  exists sj : state rng,
    state_at x0 kmax g j = Ok sj /\
    (forall (i : nat) (si : state rng),
        (i <= j)%nat -> state_at x0 kmax g i = Ok si ->
        f0_best sj <= f0_temp si) /\
    (exists (i : nat) (si : state rng),
        (i <= j)%nat /\ state_at x0 kmax g i = Ok si /\
        x0_best sj = x0_temp si /\ f0_best sj = f0_temp si).
Proof.
  destruct (best_is_some_current x0 kmax g j)
    as (sj & i0 & s0 & Hj & Hi0 & Hs0 & Hx & Hf).
  exists sj. split; [exact Hj |]. split.
  - intros i si Hij Hi.
    destruct (state_at_continues x0 kmax g i j Hij) as [ks Hks].
    rewrite Hi, Hj in Hks. simpl in Hks. symmetry in Hks.
    apply (Qle_trans _ (f0_best si)).
    + apply (loop_best_le kmax ks si sj Hks).
    + apply (state_at_best_le_current x0 kmax g i si Hi).
  - exists i0, s0. auto.
Qed.

End Best_and_current.

(** ** The temperature schedule and the one exception *)

Lemma Qdiv_lt_compat_r (a b c : Q) : 0 < c -> a < b -> a / c < b / c.
Proof.
  intros Hc Hab. unfold Qdiv. apply Qmult_lt_compat_r; [| exact Hab].
  apply Qinv_lt_0_compat, Hc.
Qed.

Lemma Qdiv_le_compat_r (a b c : Q) : 0 < c -> a <= b -> a / c <= b / c.
Proof.
  intros Hc Hab. unfold Qdiv. apply Qmult_le_compat_r; [exact Hab |].
  apply Qlt_le_weak, Qinv_lt_0_compat, Hc.
Qed.

(** X7. For a positive [kmax] the schedule is [1] in the first pass,
    and in every pass of [range(kmax)] it is positive and at most [1];
    from a pass to any later one it does not increase, and it strictly
    decreases when [kmax] is at most [2^53] (the size up to which the
    quotients of two passes are different doubles). *)
Theorem temperature_schedule (kmax k k' : Z) :
  (0 < kmax)%Z ->
  (0 <= k <= k')%Z ->
  (k' < kmax)%Z ->
  exists T0 T T' : Q,
    temperature kmax 0 = Ok T0 /\ T0 == 1 /\
    temperature kmax k = Ok T /\
    temperature kmax k' = Ok T' /\
    0 < T' /\ T' <= T /\ T <= 1 /\
    ((k < k')%Z -> (kmax <= 2 ^ 53)%Z -> T' < T).
Proof.
  intros Hmax0 Hk Hk'.
  assert (Hmax : kmax <> 0%Z) by lia.
  assert (Hpos : 0 < inject_Z kmax) by (apply inject_Z_pos; lia).
  exists (inject_Z (kmax - 0) / inject_Z kmax),
         (inject_Z (kmax - k) / inject_Z kmax),
         (inject_Z (kmax - k') / inject_Z kmax).
  split; [apply temperature_nonzero, Hmax |]. split.
  { rewrite Z.sub_0_r. apply Qmult_inv_r. intros H. rewrite H in Hpos.
    exact (Qlt_irrefl 0 Hpos). }
  split; [apply temperature_nonzero, Hmax |].
  split; [apply temperature_nonzero, Hmax |]. split.
  { apply Qdiv_pos; [apply inject_Z_pos; lia | exact Hpos]. }
  split.
  { apply Qdiv_le_compat_r; [exact Hpos |]. rewrite <- Zle_Qle. lia. }
  split.
  { apply Qle_shift_div_r; [exact Hpos |]. rewrite Qmult_1_l.
    rewrite <- Zle_Qle. lia. }
  intros Hlt _. apply Qdiv_lt_compat_r; [exact Hpos |].
  rewrite <- Zlt_Qlt. lia.
Qed.

Section Exceptions.

Context {rng : Type} {np : Numpy rng}.

Lemma body_raises_iff (kmax k : Z) (st : state rng) :
  (exists e, body kmax k st = Raise e) <-> kmax = 0%Z.
Proof.
  split.
  - intros [e He]. destruct (Z.eq_dec kmax 0) as [H0 | Hn]; [exact H0 |].
    destruct (body_total kmax k st Hn) as [st' Hst'].
    rewrite Hst' in He. discriminate.
  - intros ->. exists ZeroDivisionError.
    unfold body, metropolis.
    destruct (neighbor (x0_temp st) (gen st)) as [x1 g1]. reflexivity.
Qed.

(** X8. The one exception of the cell, [ZeroDivisionError], is raised
    by a pass exactly when [kmax] is [0], and by a loop over given
    indices exactly when [kmax] is [0] and there is at least one index;
    a run, whose indices are [range(kmax)], raises nothing, whatever
    [kmax] is. *)
Theorem zero_division_only_outside_runs (kmax : Z) :
  (forall (k : Z) (st : state rng),
      (exists e, body kmax k st = Raise e) <-> kmax = 0%Z) /\
  (forall (ks : list Z) (st : state rng),
      loop kmax ks st = Raise ZeroDivisionError <-> kmax = 0%Z /\ ks <> []) /\
  (forall (x0 : point) (g : rng) (n : nat) (e : exn),
      anneal x0 kmax g <> Raise e /\ state_at x0 kmax g n <> Raise e).
Proof.
  split; [exact (body_raises_iff kmax) |]. split.
  - intros ks st. split.
    + intros Hr. destruct (Z.eq_dec kmax 0) as [H0 | Hn].
      * split; [exact H0 |]. intros ->. discriminate.
      * destruct (loop_total kmax ks st (or_intror Hn)) as [st' Hst'].
        rewrite Hst' in Hr. discriminate.
    + intros [-> Hks]. destruct ks as [| k ks]; [contradiction |]. simpl.
      destruct (proj2 (body_raises_iff 0 k st) eq_refl) as [[] ->].
      reflexivity.
  - intros x0 g n e. split.
    + destruct (anneal_total x0 kmax g) as [st ->]. discriminate.
    + destruct (state_at_total x0 kmax g n) as [st ->]. discriminate.
Qed.

End Exceptions.

(** ** The initial point and what the cell prints *)

Lemma box_cost_bound (x y : Q) :
  -2 < x -> x <= 2 -> -2 < y -> y <= 2 -> cost (x, y) < 3609.
Proof.
  intros Hx1 Hx2 Hy1 Hy2. unfold cost, rosenbrock. simpl.
  assert (Hxx : x * x <= 4) by nra.
  assert (Hxx0 : 0 <= x * x) by nra.
  assert (H1 : (1 - x) * (1 - x) < 9) by nra.
  assert (H2 : (y - x * x) * (y - x * x) <= 36) by nra.
  nra.
Qed.

Section Cell.

Context {rng : Type} {np : Numpy rng}.

Lemma draw_x0_eq (g : rng) :
  draw_x0 g =
    ((2 - fst (rand g) * 4, 2 - fst (rand (snd (rand g))) * 4),
     snd (rand (snd (rand g)))).
Proof.
  unfold draw_x0. destruct (rand g) as [u0 g1]. simpl.
  destruct (rand g1) as [u1 g2]. reflexivity.
Qed.

(** X10. When the two uniform draws are in [[0, 1)], both coordinates
    of the initial point [2 - rand(2) * 4] are in [(-2, 2]], and its
    cost is below [3609]. *)
Theorem initial_point_in_box (g : rng) :
  in_unit (fst (rand g)) ->
  in_unit (fst (rand (snd (rand g)))) ->
  -2 < fst (fst (draw_x0 g)) /\ fst (fst (draw_x0 g)) <= 2 /\
  -2 < snd (fst (draw_x0 g)) /\ snd (fst (draw_x0 g)) <= 2 /\
  0 <= cost (fst (draw_x0 g)) /\ cost (fst (draw_x0 g)) < 3609.
Proof.
  intros [H0 H1] [H2 H3]. rewrite draw_x0_eq. simpl fst; simpl snd.
  assert (Ha : -2 < 2 - fst (rand g) * 4) by lra.
  assert (Hb : 2 - fst (rand g) * 4 <= 2) by lra.
  assert (Hc : -2 < 2 - fst (rand (snd (rand g))) * 4) by lra.
  assert (Hd : 2 - fst (rand (snd (rand g))) * 4 <= 2) by lra.
  repeat split; try assumption.
  - apply cost_nonneg.
  - apply box_cost_bound; assumption.
Qed.

(** X11. The cell always prints: a point, its cost, which is between
    [0] and the cost of the initial point, and a count between [0] and
    [1000]. *)
Theorem cell16_prints (g : rng) :
  exists (p : point) (c : Q) (n : Z),
    cell16 g = Ok (p, c, n) /\
    c = cost p /\ 0 <= c /\ c <= cost (fst (draw_x0 g)) /\
    (0 <= n <= 1000)%Z.
Proof.
  unfold cell16. destruct (draw_x0 g) as [x0 g0]. simpl fst.
  destruct (anneal_total x0 1000 g0) as [st Hst]. rewrite Hst. simpl.
  exists (x0_best st), (cost (x0_best st)), (count st).
  split; [reflexivity |].
  destruct (anneal_best_bound x0 1000 g0 st Hst) as [Hb [_ Hc]].
  split; [reflexivity |]. split; [apply cost_nonneg |].
  split; [rewrite <- Hc; apply initial_or_better_le, Hb |].
  apply loop_count in Hst. simpl in Hst. lia.
Qed.

End Cell.

(** ** Temperature and acceptance *)

Lemma Qinv_le_contravar (a b : Q) : 0 < a -> a <= b -> / b <= / a.
Proof.
  intros Ha Hab. assert (Hb : 0 < b) by lra.
  pose proof (Qinv_lt_0_compat a Ha) as Hia.
  pose proof (Qinv_lt_0_compat b Hb) as Hib.
  assert (Ea : a * / a == 1) by (apply Qmult_inv_r; intros E; rewrite E in Ha; lra).
  assert (Eb : b * / b == 1) by (apply Qmult_inv_r; intros E; rewrite E in Hb; lra).
  revert Hia Hib Ea Eb. generalize (/ a) (/ b). intros ia ib Hia Hib Ea Eb.
  assert (Hp : 0 <= ia * ib * (b - a)).
  { apply Qmult_le_0_compat; [| lra].
    apply Qmult_le_0_compat; lra. }
  assert (Hq : ia * ib * (b - a) == ia - ib).
  { transitivity ((b * ib) * ia - (a * ia) * ib); [ring |].
    rewrite Ea, Eb. ring. }
  lra.
Qed.

Lemma cooler_exponent (d T1 T2 : Q) :
  0 <= d -> 0 < T1 -> T1 <= T2 ->
  - d / T1 <= - d / T2 /\ - d / T2 <= 0.
Proof.
  intros Hd HT1 HT12. unfold Qdiv.
  assert (HT2 : 0 < T2) by lra.
  pose proof (Qinv_le_contravar T1 T2 HT1 HT12) as Hi.
  pose proof (Qinv_lt_0_compat T2 HT2) as Hi2.
  revert Hi Hi2. generalize (/ T1) (/ T2). intros i1 i2 Hi Hi2.
  split; nra.
Qed.

Section Acceptance.

Context {rng : Type} {np : Numpy rng}.

Lemma hotter_accepts_more (st : state rng) (T1 T2 : Q) :
  exp_monotone np ->
  ~ improves st -> 0 < T1 -> T1 <= T2 ->
  metropolis_test T1 st -> metropolis_test T2 st.
Proof.
  intros Hmono Hn HT1 HT12. unfold metropolis_test, improves in *.
  apply Qnot_lt_le in Hn. intros Hu.
  destruct (cooler_exponent (cost (candidate st) - f0_temp st) T1 T2)
    as [H1 H2]; [lra | exact HT1 | exact HT12 |].
  apply (Qlt_le_trans _ _ _ Hu). apply Hmono; assumption.
Qed.

(** X12. When [np.exp] is non-decreasing on the non-positive numbers,
    acceptance only gets harder as the run cools: a state whose
    candidate is accepted in a pass [k'] of [range(kmax)] has it
    accepted in every earlier pass [k] too, with the same new current
    point and cost. *)
Theorem earlier_pass_accepts (kmax k k' : Z) (st st1' : state rng) :
  exp_monotone np ->
  (0 <= k <= k')%Z -> (k' < kmax)%Z ->
  metropolis kmax k' st = Ok (true, st1') ->
  exists st1 : state rng,
    metropolis kmax k st = Ok (true, st1) /\
    x0_temp st1 = x0_temp st1' /\ f0_temp st1 = f0_temp st1' /\
    count st1 = count st1'.
Proof.
  intros Hexp Hk Hk' Hm.
  assert (Hmax : kmax <> 0%Z) by lia.
  pose proof (temperature_nonzero kmax k Hmax) as HT.
  pose proof (temperature_nonzero kmax k' Hmax) as HT'.
  assert (Hpos : 0 < inject_Z kmax) by (apply inject_Z_pos; lia).
  destruct (Qlt_or_not (cost (candidate st)) (f0_temp st)) as [Hi | Hi].
  - rewrite (metropolis_if kmax k' st _ HT' Hi) in Hm.
    injection Hm as <-. eexists. split; [apply (metropolis_if kmax k st _ HT Hi) |].
    repeat split.
  - destruct (Qlt_or_not (uniform_draw st)
                (exp (- (cost (candidate st) - f0_temp st)
                      / (inject_Z (kmax - k') / inject_Z kmax))))
      as [Hu | Hu].
    + rewrite (metropolis_elif kmax k' st _ HT' Hi Hu) in Hm.
      injection Hm as <-. eexists.
      split; [apply (metropolis_elif kmax k st _ HT Hi) |].
      * apply (hotter_accepts_more st
                 (inject_Z (kmax - k') / inject_Z kmax)
                 (inject_Z (kmax - k) / inject_Z kmax) Hexp Hi).
        -- apply Qdiv_pos; [apply inject_Z_pos; lia | exact Hpos].
        -- unfold Qdiv. apply Qmult_le_compat_r.
           ++ rewrite <- Zle_Qle. lia.
           ++ apply Qlt_le_weak, Qinv_lt_0_compat, Hpos.
        -- exact Hu.
      * repeat split.
    + rewrite (metropolis_else kmax k' st _ HT' Hi Hu) in Hm. discriminate.
Qed.

(** X13. When [np.exp] is non-decreasing and not negative on the
    non-positive numbers and [1] at [0], the plotted [proba] is a
    probability for costs [fx >= 1] and temperatures [T > 0]: it lies
    in [[0, 1]], is [1] at [fx = 1], does not increase with the cost
    and does not decrease with the temperature. *)
Theorem proba_is_probability (fx fx' T T' : Q) :
  exp_monotone np -> exp_nonneg np -> exp 0 == 1 ->
  1 <= fx -> fx <= fx' -> 0 < T -> T <= T' ->
  0 <= proba fx' T /\
  proba fx' T <= proba fx T /\
  proba fx T <= proba fx T' /\
  proba fx T' <= 1 /\
  proba 1 T == 1.
Proof.
  intros Hmono Hpos H0 Hfx Hfx' HT HTT'. unfold proba.
  assert (HT' : 0 < T') by lra.
  destruct (cooler_exponent (fx - 1) T T') as [H1 H2]; [lra | lra | lra |].
  destruct (cooler_exponent (fx' - 1) T T) as [_ H3]; [lra | lra | lra |].
  destruct (cooler_exponent (1 - 1) T T) as [_ H4]; [lra | lra | lra |].
  assert (H5 : - (fx' - 1) / T <= - (fx - 1) / T).
  { unfold Qdiv. pose proof (Qinv_lt_0_compat T HT) as Hi.
    revert Hi. generalize (/ T). intros i Hi. nra. }
  assert (H6 : 0 <= - (1 - 1) / T).
  { unfold Qdiv. generalize (/ T). intros i. nra. }
  split; [apply Hpos, H3 |].
  split; [apply Hmono; [exact H5 | lra] |].
  split; [apply Hmono; [exact H1 | exact H2] |].
  pose proof (Hmono _ _ H2 (Qle_refl 0)) as Hle1.
  pose proof (Hmono _ _ H4 (Qle_refl 0)) as Hle2.
  pose proof (Hmono _ _ H6 H4) as Hle3.
  split; [lra |]. apply Qle_antisym; lra.
Qed.

End Acceptance.

(** ** The number of draws *)

Section Counting.

Context {rng : Type} {np : Numpy rng}.

Lemma counted_same_draws :
  @same_draws rng (counted rng) np (counted_numpy np) (fun g c => g = fst c).
Proof.
  intros g c ->. simpl.
  destruct (randn (fst c)) as [z g1]. destruct (rand (fst c)) as [u g2].
  repeat split.
Qed.

(** One pass on the counting generator: one draw when the candidate
    improves, two when it does not; the counter of accepted uphill
    moves can only grow in the second case. *)
Lemma body_draws (kmax k : Z) (sc sc' : state (counted rng)) :
  @body _ (counted_numpy np) kmax k sc = Ok sc' ->
  (snd (gen sc') = S (snd (gen sc)) /\ count sc' = count sc) \/
  (snd (gen sc') = S (S (snd (gen sc))) /\
   (count sc' = count sc \/ count sc' = (count sc + 1)%Z)).
Proof.
  unfold body, metropolis, neighbor. simpl.
  destruct (randn (fst (gen sc))) as [z g1]. simpl.
  destruct (temperature kmax k) as [T | e]; simpl; [| discriminate].
  destruct (Qlt_bool _ (f0_temp sc)); simpl.
  - intros [= <-]. left.
    match goal with |- context [track_best ?s] =>
      pose proof (track_best_current s) as (_ & _ & Hc & Hg)
    end.
    rewrite Hc, Hg. simpl. auto.
  - destruct (rand g1) as [u g2]. simpl.
    destruct (Qlt_bool u _); simpl; intros [= <-]; right.
    + match goal with |- context [track_best ?s] =>
        pose proof (track_best_current s)
          as (_ & _ & Hc & Hg)
      end.
      rewrite Hc, Hg. simpl. auto.
    + simpl. auto.
Qed.

Lemma loop_draws (kmax : Z) (ks : list Z) (sc sc' : state (counted rng)) :
  @loop _ (counted_numpy np) kmax ks sc = Ok sc' ->
  (Z.of_nat (length ks) + (count sc' - count sc)
   <= Z.of_nat (snd (gen sc')) - Z.of_nat (snd (gen sc))
   <= 2 * Z.of_nat (length ks))%Z.
Proof.
  revert sc. induction ks as [| k ks IH]; intros sc; cbn [loop].
  - intros [= <-]. cbn [length]. lia.
  - destruct (@body _ (counted_numpy np) kmax k sc) as [s1 | e] eqn:Hb;
      cbn [bind]; [| discriminate].
    intros Hl. apply IH in Hl.
    destruct (body_draws kmax k sc s1 Hb) as [[Hg Hc] | [Hg [Hc | Hc]]];
      cbn [length]; lia.
Qed.

(** X14. A run makes at least one draw per pass and at most two: run on
    a generator that counts its draws, it reaches the same variables as
    on the generator alone, and after the passes made the number of
    draws is at least the number of passes plus [count] and at most
    twice the number of passes. *)
Theorem draws_per_run (x0 : point) (kmax : Z) (g : rng) (n : nat) :
  exists (st : state rng) (sc : state (counted rng)),
    state_at x0 kmax g n = Ok st /\
    @state_at _ (counted_numpy np) x0 kmax (g, 0%nat) n = Ok sc /\
    same_vars st sc /\ gen st = fst (gen sc) /\
    (Z.of_nat (passes kmax n) + count st
     <= Z.of_nat (snd (gen sc))
     <= 2 * Z.of_nat (passes kmax n))%Z.
Proof.
  destruct (state_at_total x0 kmax g n) as [st Hst].
  destruct (@state_at_total _ (counted_numpy np) x0 kmax (g, 0%nat) n)
    as [sc Hsc].
  exists st, sc. split; [exact Hst |]. split; [exact Hsc |].
  assert (Hrel : result_rel (state_rel (fun g c => g = fst c))
                   (state_at x0 kmax g n)
                   (@state_at _ (counted_numpy np) x0 kmax (g, 0%nat) n)).
  { apply (@loop_rel _ _ np (counted_numpy np) (fun g c => g = fst c)).
    - intros q. reflexivity.
    - apply counted_same_draws.
    - repeat split. }
  rewrite Hst, Hsc in Hrel. destruct Hrel as [Hv Hg].
  split; [exact Hv |]. split; [exact Hg |].
  apply loop_draws in Hsc. unfold init in Hsc. cbn [count gen snd] in Hsc.
  destruct Hv as (_ & _ & _ & _ & Hc). unfold passes.
  rewrite Hc. rewrite Z.sub_0_r, Nat2Z.inj_0, Z.sub_0_r in Hsc. exact Hsc.
Qed.

End Counting.

(** ** The added properties on a tape *)

Lemma exp_pade_monotone : exp_monotone tape_numpy.
Proof.
  intros a b Hab Hb. simpl. unfold exp_pade, Qdiv. rewrite !Qmult_1_l.
  apply Qinv_le_contravar; lra.
Defined.

Lemma exp_pade_nonneg : exp_nonneg tape_numpy.
Proof.
  intros a Ha. simpl. unfold exp_pade, Qdiv. rewrite Qmult_1_l.
  apply Qlt_le_weak, Qinv_lt_0_compat. lra.
Defined.

Lemma rosenbrock_nonneg_witness :
  0 <= 100 /\ 0 <= rosenbrock 0 1 1 100 /\ 0 <= cost (0, 1).
Proof.
  split; [discriminate |]. apply (rosenbrock_nonneg 0 1 1 100). discriminate.
Defined.

Lemma count_bounds_witness :
  (1 <= 3)%nat /\
  exists si sj : state tape,
    state_at demo_x0 3 demo_tape 1 = Ok si /\
    state_at demo_x0 3 demo_tape 3 = Ok sj /\
    (0 <= count sj - count si <= Z.of_nat (3 - 1))%Z /\
    (0 <= count sj <= Z.of_nat (passes 3 3))%Z /\
    (count sj <= Z.max 0 3)%Z.
Proof.
  split; [lia |]. apply (count_bounds demo_x0 3 demo_tape 1 3). lia.
Defined.

Lemma temperature_schedule_witness :
  (0 < 1000)%Z /\ (0 <= 1 <= 999)%Z /\ (999 < 1000)%Z /\
  exists T0 T T' : Q,
    temperature 1000 0 = Ok T0 /\ T0 == 1 /\
    temperature 1000 1 = Ok T /\
    temperature 1000 999 = Ok T' /\
    0 < T' /\ T' <= T /\ T <= 1 /\
    ((1 < 999)%Z -> (1000 <= 2 ^ 53)%Z -> T' < T).
Proof.
  split; [lia |]. split; [lia |]. split; [lia |].
  apply (temperature_schedule 1000 1 999); lia.
Defined.

Lemma initial_point_in_box_witness :
  in_unit (1 # 2) /\ in_unit (1 # 4) /\
  -2 < fst (fst (draw_x0 [1 # 2; 1 # 4])) /\
  fst (fst (draw_x0 [1 # 2; 1 # 4])) <= 2 /\
  -2 < snd (fst (draw_x0 [1 # 2; 1 # 4])) /\
  snd (fst (draw_x0 [1 # 2; 1 # 4])) <= 2 /\
  0 <= cost (fst (draw_x0 [1 # 2; 1 # 4])) /\
  cost (fst (draw_x0 [1 # 2; 1 # 4])) < 3609.
Proof.
  assert (H0 : in_unit (1 # 2)) by (split; [discriminate | reflexivity]).
  assert (H1 : in_unit (1 # 4)) by (split; [discriminate | reflexivity]).
  split; [exact H0 |]. split; [exact H1 |].
  exact (initial_point_in_box (rng := tape) [1 # 2; 1 # 4] H0 H1).
Defined.

Lemma earlier_pass_accepts_witness :
  (0 <= 0 <= 2)%Z /\ (2 < 3)%Z /\
  metropolis 3 2 (init (- 1 # 4, 3 # 4) [1 # 5; 0; 1 # 7])
  = Ok (true,
        {| x0_temp := add_scalar (- 1 # 4, 3 # 4) (1 # 5);
           f0_temp := cost (add_scalar (- 1 # 4, 3 # 4) (1 # 5));
           x0_best := (- 1 # 4, 3 # 4);
           f0_best := cost (- 1 # 4, 3 # 4);
           count := 1; gen := [1 # 7] |}) /\
  exists st1 : state tape,
    metropolis 3 0 (init (- 1 # 4, 3 # 4) [1 # 5; 0; 1 # 7]) = Ok (true, st1) /\
    x0_temp st1 = add_scalar (- 1 # 4, 3 # 4) (1 # 5) /\
    f0_temp st1 = cost (add_scalar (- 1 # 4, 3 # 4) (1 # 5)) /\
    count st1 = 1%Z.
Proof.
  split; [lia |]. split; [lia |]. split; [reflexivity |].
  apply (earlier_pass_accepts 3 0 2
           (init (- 1 # 4, 3 # 4) [1 # 5; 0; 1 # 7])
           {| x0_temp := add_scalar (- 1 # 4, 3 # 4) (1 # 5);
              f0_temp := cost (add_scalar (- 1 # 4, 3 # 4) (1 # 5));
              x0_best := (- 1 # 4, 3 # 4);
              f0_best := cost (- 1 # 4, 3 # 4);
              count := 1; gen := [1 # 7] |}
           exp_pade_monotone).
  - lia.
  - lia.
  - reflexivity.
Defined.

Lemma proba_is_probability_witness :
  1 <= 1 /\ 1 <= 2 /\ 0 < 1 # 2 /\ 1 # 2 <= 1 /\
  0 <= proba (rng := tape) 2 (1 # 2) /\
  proba (rng := tape) 2 (1 # 2) <= proba (rng := tape) 1 (1 # 2) /\
  proba (rng := tape) 1 (1 # 2) <= proba (rng := tape) 1 1 /\
  proba (rng := tape) 1 1 <= 1 /\
  proba (rng := tape) 1 (1 # 2) == 1.
Proof.
  split; [discriminate |]. split; [discriminate |].
  split; [reflexivity |]. split; [discriminate |].
  apply (proba_is_probability (rng := tape) 1 2 (1 # 2) 1
           exp_pade_monotone exp_pade_nonneg);
    try discriminate; reflexivity.
Defined.

(** The demonstration run, counted: three passes, five draws, one
    accepted uphill move. *)
Example demo_run_counted :
  exists sc : state (counted tape),
    @state_at _ (counted_numpy tape_numpy) demo_x0 3 (demo_tape, 0%nat) 3
    = Ok sc /\
    snd (gen sc) = 5%nat /\ count sc = 1%Z /\ passes 3 3 = 3%nat.
Proof. eexists. split; [reflexivity |]. repeat split. Qed.

(** ** The order of the draws of a run *)

Section Logging.

Context {rng : Type} {np : Numpy rng}.

Lemma logged_same_draws :
  @same_draws rng (logged rng) np (logged_numpy np) (fun g c => g = fst c).
Proof.
  intros g c ->. simpl.
  destruct (randn (fst c)) as [z g1]. destruct (rand (fst c)) as [u g2].
  repeat split.
Qed.

(** One pass on the logging generator appends the draws of the pass to
    the log. *)
Lemma body_log (kmax k : Z) (sl sl' : state (logged rng)) :
  @body _ (logged_numpy np) kmax k sl = Ok sl' ->
  snd (gen sl') = snd (gen sl) ++ @pass_draws _ (logged_numpy np) sl.
Proof.
  unfold body, metropolis, pass_draws, candidate, neighbor. simpl.
  destruct (randn (fst (gen sl))) as [z g1]. simpl.
  destruct (temperature kmax k) as [T | e]; simpl; [| discriminate].
  destruct (Qlt_bool _ (f0_temp sl)); simpl.
  - intros [= <-].
    match goal with |- context [track_best ?s] =>
      pose proof (track_best_current s) as (_ & _ & _ & Hg)
    end.
    rewrite Hg. reflexivity.
  - destruct (rand g1) as [u g2]. simpl.
    destruct (Qlt_bool u _); simpl; intros [= <-].
    + match goal with |- context [track_best ?s] =>
        pose proof (track_best_current s) as (_ & _ & _ & Hg)
      end.
      rewrite Hg. simpl. rewrite <- app_assoc. reflexivity.
    + simpl. rewrite <- app_assoc. reflexivity.
Qed.

Lemma pass_draws_logged (s : state rng) (sl : state (logged rng)) :
  state_rel (fun g c => g = fst c) s sl ->
  @pass_draws _ (logged_numpy np) sl = pass_draws s.
Proof.
  intros [(Hx & Hf & _) Hg]. unfold pass_draws, candidate, neighbor.
  destruct s as [xt ft xb fb c g], sl as [xt' ft' xb' fb' c' [g' l]].
  simpl in Hx, Hf, Hg. subst xt' ft' g'. simpl.
  destruct (randn g) as [z g1]. reflexivity.
Qed.

(** The logging run goes through the same variables as the run on the
    generator alone, and its log is the prescribed order of draws. *)
Lemma state_at_logged (x0 : point) (kmax : Z) (g : rng) (n : nat) :
  exists (s : state rng) (sl : state (logged rng)),
    state_at x0 kmax g n = Ok s /\
    @state_at _ (logged_numpy np) x0 kmax (g, []) n = Ok sl /\
    state_rel (fun g c => g = fst c) s sl /\
    snd (gen sl) = run_draws x0 kmax g n.
Proof.
  induction n as [| n IH].
  - exists (init x0 g), (init x0 (g, [])). repeat split.
  - destruct IH as (s & sl & Hs & Hsl & Hrel & Hlog).
    destruct (state_at_total x0 kmax g (S n)) as [s' Hs'].
    destruct (@state_at_total _ (logged_numpy np) x0 kmax (g, []) (S n))
      as [sl' Hsl'].
    exists s', sl'. split; [exact Hs' |]. split; [exact Hsl' |].
    rewrite state_at_S, Hs in Hs'. rewrite state_at_S, Hsl in Hsl'.
    cbn [bind] in Hs', Hsl'. cbn [run_draws]. rewrite Hs.
    destruct (nth_error (range kmax) n) as [k |].
    + pose proof (@body_rel _ _ np (logged_numpy np) (fun g c => g = fst c)
                    (fun q => eq_refl) logged_same_draws kmax k s sl Hrel)
        as Hb.
      rewrite Hs', Hsl' in Hb. split; [exact Hb |].
      rewrite (body_log kmax k sl sl' Hsl'), Hlog.
      rewrite (pass_draws_logged s sl Hrel). reflexivity.
    + injection Hs' as <-. injection Hsl' as <-.
      split; [exact Hrel |]. rewrite app_nil_r. exact Hlog.
Qed.

End Logging.

(** C9. Two runs from the same initial point and [kmax], with the same
    [exp], whose generators deliver the same numbers (in particular two
    runs from the same generator state) end with the same best point
    and best cost.  The draws are made in a fixed order.  In every pass:
    one [randn] for the candidate and then one [rand] for the
    acceptance test, the latter only when the candidate is not strictly
    improving.  In a run: the log of the draws that the run makes, kept
    by a generator that records every call, is pass after pass that
    sequence, and recording does not change the variables of the run;
    the run is its [kmax] passes. *)
Theorem draws_sequential_and_deterministic
  (A B : Type) (npA : Numpy A) (npB : Numpy B) (R : A -> B -> Prop)
  (x0 : point) (kmax : Z) (a : A) (b : B) :
  (forall q : Q, @exp A npA q = @exp B npB q) ->
  same_draws R ->
  R a b ->
  (exists (sa : state A) (sb : state B),
      anneal x0 kmax a = Ok sa /\ anneal x0 kmax b = Ok sb /\
      x0_best sa = x0_best sb /\ f0_best sa = f0_best sb /\
      report sa = report sb /\
      R (gen sa) (gen sb)) /\
  (forall (k : Z) (st : state A),
      In k (range kmax) ->
      exists st' : state A,
        body kmax k st = Ok st' /\
        gen st' =
          if Qlt_bool (cost (candidate st)) (f0_temp st)
          then snd (randn (gen st))
          else snd (rand (snd (randn (gen st))))) /\
  anneal x0 kmax a = state_at x0 kmax a (Z.to_nat kmax) /\
  (forall n : nat,
      exists (s : state A) (sl : state (logged A)),
        state_at x0 kmax a n = Ok s /\
        @state_at _ (logged_numpy npA) x0 kmax (a, []) n = Ok sl /\
        same_vars s sl /\ gen s = fst (gen sl) /\
        snd (gen sl) = run_draws x0 kmax a n).
Proof.
  intros Hexp Hd Hab. split; [| split; [| split]].
  - destruct (anneal_rel R Hexp Hd x0 kmax a b Hab)
      as (sa & sb & Ha & Hb & (Hx & Hf & Hxb & Hfb & Hc) & Hg).
    exists sa, sb. repeat split; try assumption.
    unfold report. rewrite Hxb, Hc. reflexivity.
  - intros k st Hk. apply body_gen.
    apply In_range in Hk. lia.
  - symmetry. apply state_at_end.
  - intros n. destruct (state_at_logged x0 kmax a n)
      as (s & sl & Hs & Hsl & [Hv Hg] & Hlog).
    exists s, sl. split; [exact Hs |]. split; [exact Hsl |].
    split; [exact Hv |]. split; [exact Hg | exact Hlog].
Qed.

(** The draws of the demonstration run: the first pass rejects, the
    second improves, the third is accepted by the [elif] test. *)
Example demo_run_draws :
  run_draws demo_x0 3 demo_tape 3
  = [Normal; Uniform; Normal; Normal; Uniform] /\
  exists sl : state (logged tape),
    @state_at _ (logged_numpy tape_numpy) demo_x0 3 (demo_tape, []) 3 = Ok sl /\
    snd (gen sl) = [Normal; Uniform; Normal; Normal; Uniform] /\
    fst (gen sl) = [1 # 7].
Proof.
  split; [reflexivity |]. eexists. split; [reflexivity |]. split; reflexivity.
Qed.

Lemma draws_sequential_and_deterministic_witness :
  (exists sa sb : state tape,
      anneal demo_x0 3 demo_tape = Ok sa /\
      anneal demo_x0 3 demo_tape = Ok sb /\
      x0_best sa = x0_best sb /\ f0_best sa = f0_best sb /\
      report sa = report sb /\ gen sa = gen sb) /\
  anneal demo_x0 3 demo_tape = state_at demo_x0 3 demo_tape (Z.to_nat 3) /\
  (forall n : nat,
      exists (s : state tape) (sl : state (logged tape)),
        state_at demo_x0 3 demo_tape n = Ok s /\
        @state_at _ (logged_numpy tape_numpy) demo_x0 3 (demo_tape, []) n
        = Ok sl /\
        same_vars s sl /\ gen s = fst (gen sl) /\
        snd (gen sl) = run_draws demo_x0 3 demo_tape n).
Proof.
  pose proof (draws_sequential_and_deterministic tape tape tape_numpy
                tape_numpy eq demo_x0 3 demo_tape demo_tape
                (fun q => eq_refl) tape_same_draws eq_refl)
    as (H1 & _ & H3 & H4).
  split; [exact H1 |]. split; [exact H3 | exact H4].
Defined.

(** ** The diagonal, in binary64 *)







Section Binary64_run.

Context {rng : Type} {np : F64.Numpy rng}.










End Binary64_run.

(** The binary64 demonstration run: the current point is reached by the
    two accepted draws, the best point by the first of them; all sums
    are exact and both points are on the line. *)
Example demo64_run :
  exists st : F64.state tape64,
    F64.state_at demo64_x0 3 demo64_tape 3 = Ok st /\
    F64.x0_temp st
    = F64.shift demo64_x0 [F64.scaled (-1) (-2); F64.scaled 1 (-3)] /\
    F64.x0_best st = F64.shift demo64_x0 [F64.scaled (-1) (-2)] /\
    F64.count st = 1%Z /\
    exact_shifts demo64_x0 [F64.scaled (-1) (-2); F64.scaled 1 (-3)] = true /\
    on_line64_bool demo64_x0 (F64.x0_temp st) = true /\
    on_line64_bool demo64_x0 (F64.x0_best st) = true.
Proof.
  eexists. split; [vm_compute; reflexivity |]. repeat split.
Qed.



(** The schedule in binary64.  Up to [kmax = 2^53] two passes have
    different temperatures; beyond, the quotients of the first passes
    can round to the same double: with [kmax = 2^60] the second pass
    has temperature [1.0], like the first. *)
Example schedule64 :
  F64.temperature 1000 0 = Ok (F64.of_int 1) /\
  F64.temperature (2 ^ 53 - 1) 1 = Ok (F64.scaled (2 ^ 53 - 1) (-53)) /\
  F64.temperature (2 ^ 53) 1 = Ok (F64.scaled (2 ^ 53 - 1) (-53)) /\
  F64.temperature (2 ^ 60) 1 = Ok (F64.of_int 1) /\
  F64.temperature 3 2 = Ok (F64.scaled 6004799503160661 (-54)).
Proof. repeat split. Qed.
